(** * Predefined configuration variables (pkg/devspace/config/configutil)

    A shallow embedding of [predefined_vars.go]: the registry
    [PredefinedVars], the eager pass [fillPredefinedVars] and the accessor
    [getPredefinedVar], followed by the properties of the resolution
    engine.

    Conventions of the embedding:
    - a Go [string] is a [string] of bytes, a Go [int] is a [Z] kept within
      64 bits (the wrap-around of [idx-1] is written out);
    - a Go [(T, error)] result is a pair with an [option error], [nil]
      being [None]; a [*string] is an [option string];
    - a run-time panic (slice or index out of range) is the outcome
      [Panics];
    - the registry maps every name to its definition record; the record is
      reached through a pointer in Go, so the assignment of [Value] is an
      update of the map at that name;
    - the packages [kubeconfig], [cloudconfig], [cloudtoken], [git],
      [randutil], [time] and [ansi] are collaborators whose code is not
      part of this unit: they are the fields of [Externals]. *)

From Stdlib Require Import ZArith Ascii String List Lia DecimalString.
From stdpp Require Import gmap strings list fin_maps.

Local Open Scope string_scope.
Local Open Scope list_scope.
Local Open Scope Z_scope.

(** ** Strings *)

Module Strings.

Definition isLower (c : ascii) : bool :=
  (97 <=? nat_of_ascii c)%nat && (nat_of_ascii c <=? 122)%nat.

Definition upperByte (c : ascii) : ascii :=
  if isLower c then ascii_of_nat (nat_of_ascii c - 32) else c.

(** [strings.ToUpper] on ASCII text: the letters [a]-[z] are mapped to
    [A]-[Z]. Bytes from 128 on are kept as they are; Go upper-cases the
    runes they encode, so the embedding follows Go on ASCII names only
    (see [isASCII]). *)
Fixpoint ToUpper (s : string) : string :=
  match s with
  | EmptyString => EmptyString
  | String c rest => String (upperByte c) (ToUpper rest)
  end.

Fixpoint isASCII (s : string) : bool :=
  match s with
  | EmptyString => true
  | String c rest => (nat_of_ascii c <? 128)%nat && isASCII rest
  end.

(** [strings.HasPrefix s prefix]. *)
Definition HasPrefix (s prefix : string) : bool := String.prefix prefix s.

Fixpoint dropBytes (n : nat) (s : string) : string :=
  match n, s with
  | O, _ => s
  | S n', String _ rest => dropBytes n' rest
  | S _, EmptyString => EmptyString
  end.

Fixpoint takeBytes (n : nat) (s : string) : string :=
  match n, s with
  | O, _ => EmptyString
  | S n', String c rest => String c (takeBytes n' rest)
  | S _, EmptyString => EmptyString
  end.

End Strings.

(** ** Outcomes of a call: a returned value or a run-time panic *)

Inductive outcome (A : Type) : Type :=
| Returns (a : A)
| Panics.
Arguments Returns {A} a.
Arguments Panics {A}.

Module Slice.
Import Strings.

(** [s[n:]]: panics when [n > len(s)]. *)
Definition from (n : nat) (s : string) : outcome string :=
  if (n <=? String.length s)%nat then Returns (dropBytes n s) else Panics.

(** [s[:n]]: panics when [n > len(s)]. *)
Definition upto (n : nat) (s : string) : outcome string :=
  if (n <=? String.length s)%nat then Returns (takeBytes n s) else Panics.

(** [l[i]] for an [int] index: panics when [i < 0] or [i >= len(l)]. *)
Definition index {A : Type} (l : list A) (i : Z) : outcome A :=
  if i <? 0 then Panics
  else match l !! Z.to_nat i with
       | Some x => Returns x
       | None => Panics
       end.

End Slice.

(** ** Errors

    An error value keeps the constructor call that built it, with its
    arguments: [errors.New], [errors.Wrap] and [errors.Errorf] of
    github.com/pkg/errors, and [*strconv.NumError]. *)

Inductive fmtArg (E : Type) : Type :=
| ArgS (s : string)
| ArgD (n : Z)
| ArgV (e : E).
Arguments ArgS {E} s.
Arguments ArgD {E} n.
Arguments ArgV {E} e.

#[warnings="-register-all"]
Inductive error : Type :=
| New (message : string)
| Wrap (cause : error) (message : string)
| Errorf (format : string) (args : list (fmtArg error))
| NumError (Func Num : string) (Err : error).

(** A Go result [(v, err)] of a collaborator: the code reads [v] only when
    [err == nil]. *)
Inductive result (A : Type) : Type :=
| Ok (a : A)
| Failed (err : error).
Arguments Ok {A} a.
Arguments Failed {A} err.

(** ** strconv *)

Module Strconv.

Definition ErrSyntax : error := New "invalid syntax".
Definition ErrRange : error := New "value out of range".

Definition syntaxError (fn str : string) : error := NumError fn str ErrSyntax.
Definition rangeError (fn str : string) : error := NumError fn str ErrRange.

Definition maxUint64 : Z := 2 ^ 64 - 1.
Definition minInt64 : Z := - 2 ^ 63.
Definition maxInt64 : Z := 2 ^ 63 - 1.

(** Two's complement wrap-around of a 64-bit [int]. *)
Definition wrapInt (z : Z) : Z := (z + 2 ^ 63) mod 2 ^ 64 - 2 ^ 63.

Definition isDigit (c : ascii) : bool :=
  (48 <=? nat_of_ascii c)%nat && (nat_of_ascii c <=? 57)%nat.

Definition digitValue (c : ascii) : Z := Z.of_nat (nat_of_ascii c - 48).

Inductive scan : Type :=
| ScanOk (n : Z)
| ScanSyntax
| ScanRange.

(** The digit loop of [ParseUint(s, 10, 64)]: a byte that is no decimal
    digit is a syntax error, an overflow of 64 bits a range error; the
    first of the two that the scan meets decides. *)
Fixpoint scanDigits (s : string) (n : Z) : scan :=
  match s with
  | EmptyString => ScanOk n
  | String c rest =>
      if negb (isDigit c) then ScanSyntax
      else if maxUint64 / 10 + 1 <=? n then ScanRange
      else if maxUint64 <? n * 10 + digitValue c then ScanRange
      else scanDigits rest (n * 10 + digitValue c)
  end.

Definition ParseUint (s : string) : scan :=
  match s with
  | EmptyString => ScanSyntax
  | _ => scanDigits s 0
  end.

Definition plus : ascii := "+"%char.
Definition minus : ascii := "-"%char.

(** [strconv.Atoi] with a 64-bit [int], that is [ParseInt(s, 10, 0)] with
    the function name of the error set to [Atoi]. *)
Definition Atoi (s : string) : Z * option error :=
  match s with
  | EmptyString => (0, Some (syntaxError "Atoi" s))
  | String c rest =>
      let neg := Ascii.eqb c minus in
      let digits := if Ascii.eqb c plus || neg then rest else s in
      match ParseUint digits with
      | ScanSyntax => (0, Some (syntaxError "Atoi" s))
      | ScanRange =>
          if neg then (minInt64, Some (rangeError "Atoi" s))
          else (maxInt64, Some (rangeError "Atoi" s))
      | ScanOk un =>
          if negb neg && (2 ^ 63 <=? un) then (maxInt64, Some (rangeError "Atoi" s))
          else if neg && (2 ^ 63 <? un) then (minInt64, Some (rangeError "Atoi" s))
          else (if neg then - un else un, None)
      end
  end.

(** [strconv.FormatInt(n, 10)]. *)
Definition FormatInt (n : Z) : string := NilZero.string_of_int (Z.to_int n).

End Strconv.

(** ** Collaborators *)

(** Modelled from the spec: the records of the cloud provider store, whose
    type declarations (package [cloudconfig]) are not part of this unit. A
    provider record exposes an authentication token and a mapping from
    space identifier to a space record; a space record holds a display
    name, a service-account namespace and an ordered list of domain
    entries, each with a URL. The field names are the ones the code
    selects; [Spaces] is optional because the code tests the map against
    [nil]. *)
Record spaceDomain : Type := { URL : string }.
Record space : Type := { Name : string; Domains : list spaceDomain }.
Record serviceAccount : Type := { Namespace : string }.
Record spaceCache : Type := { Space : space; ServiceAccount : serviceAccount }.
Record provider : Type := { Token : string; Spaces : option (gmap Z spaceCache) }.

(** The calls the code makes out of the package. One value of [Externals]
    is what these calls answer during one pass or one lookup.
    [cloudconfig_GetProvider] and [cloudconfig_DevSpaceCloudProviderName]
    belong to this repository but not to this unit and are taken as they
    come; the provider store [Config] is opaque but for its [Default]
    field. *)
Record Externals : Type := {
  Config : Type;
  Default : Config -> string;
  ansi_Color : string -> string -> string;
  randutil_GenerateRandomString : Z -> result string;
  time_Now_Unix : Z;
  git_GetHash : result string;
  kubeconfig_GetCurrentContext : result string;
  kubeconfig_IsCloudSpace : string -> result bool;
  kubeconfig_GetSpaceID : string -> result (Z * string);
  cloudconfig_ParseProviderConfig : result Config;
  cloudconfig_GetProvider : Config -> string -> option provider;
  cloudconfig_DevSpaceCloudProviderName : string;
  cloudtoken_GetAccountName : string -> result string
}.

(** ** The registry *)

Record predefinedVarDefinition : Type := {
  Value : option string;
  ErrorMessage : string;
  Fill : string -> outcome (option string * option error)
}.

(** [predefinedVariable.Value = val]. *)
Definition setValue (d : predefinedVarDefinition) (val : option string)
  : predefinedVarDefinition :=
  {| Value := val; ErrorMessage := ErrorMessage d; Fill := Fill d |}.

Definition nl : string := String (ascii_of_nat 10) EmptyString.

(** The context a resolver works with: [kubeContext], replaced by the
    override when that is not empty. *)
Definition effectiveContext (kubeContext overrideKubeContext : string) : string :=
  if String.eqb overrideKubeContext "" then kubeContext else overrideKubeContext.

Section Registry.

Variable E : Externals.

Definition remedySpaces : string :=
  nl +:+ nl +:+ "Please run: " +:+ nl
  +:+ "- `" +:+ ansi_Color E "devspace create space [NAME]" "white+b"
  +:+ "` to create a new space" +:+ nl
  +:+ "- `" +:+ ansi_Color E "devspace use space [NAME]" "white+b"
  +:+ "` to use an existing space" +:+ nl
  +:+ "- `" +:+ ansi_Color E "devspace list spaces" "white+b"
  +:+ "` to list existing spaces".

Definition fillRandom (kubeContext : string)
  : outcome (option string * option error) :=
  match randutil_GenerateRandomString E 6 with
  | Failed err => Returns (None, Some err)
  | Ok ret => Returns (Some ret, None)
  end.

Definition fillTimestamp (kubeContext : string)
  : outcome (option string * option error) :=
  Returns (Some (Strconv.FormatInt (time_Now_Unix E)), None).

Definition fillGitCommit (kubeContext : string)
  : outcome (option string * option error) :=
  match git_GetHash E with
  | Failed _ => Returns (None, None)
  | Ok hash =>
      match Slice.upto 8 hash with
      | Returns short => Returns (Some short, None)
      | Panics => Panics
      end
  end.

Definition fillSpace (overrideKubeContext : string)
  : outcome (option string * option error) :=
  match kubeconfig_GetCurrentContext E with
  | Failed _ => Returns (None, None)
  | Ok kubeContext =>
      let kubeContext := effectiveContext kubeContext overrideKubeContext in
      match kubeconfig_IsCloudSpace E kubeContext with
      | Failed _ => Returns (None, None)
      | Ok false => Returns (None, None)
      | Ok true =>
          match kubeconfig_GetSpaceID E kubeContext with
          | Failed err => Returns (None, Some err)
          | Ok (spaceID, providerName) =>
              match cloudconfig_ParseProviderConfig E with
              | Failed _ => Returns (None, None)
              | Ok cloudConfigData =>
                  match cloudconfig_GetProvider E cloudConfigData providerName with
                  | None => Returns (None, None)
                  | Some provider =>
                      match Spaces provider with
                      | None => Returns (None, None)
                      | Some spaces =>
                          match spaces !! spaceID with
                          | None => Returns (None, None)
                          | Some cached => Returns (Some (Name (Space cached)), None)
                          end
                      end
                  end
              end
          end
      end
  end.

Definition fillSpaceNamespace (overrideKubeContext : string)
  : outcome (option string * option error) :=
  match kubeconfig_GetCurrentContext E with
  | Failed _ => Returns (None, None)
  | Ok kubeContext =>
      let kubeContext := effectiveContext kubeContext overrideKubeContext in
      match kubeconfig_IsCloudSpace E kubeContext with
      | Failed _ => Returns (None, None)
      | Ok false => Returns (None, None)
      | Ok true =>
          match kubeconfig_GetSpaceID E kubeContext with
          | Failed err => Returns (None, Some err)
          | Ok (spaceID, providerName) =>
              match cloudconfig_ParseProviderConfig E with
              | Failed _ => Returns (None, None)
              | Ok cloudConfigData =>
                  match cloudconfig_GetProvider E cloudConfigData providerName with
                  | None => Returns (None, None)
                  | Some provider =>
                      match Spaces provider with
                      | None => Returns (None, None)
                      | Some spaces =>
                          match spaces !! spaceID with
                          | None => Returns (None, None)
                          | Some cached => Returns (Some (Namespace (ServiceAccount cached)), None)
                          end
                      end
                  end
              end
          end
      end
  end.

Definition fillUsername (overrideKubeContext : string)
  : outcome (option string * option error) :=
  match kubeconfig_GetCurrentContext E with
  | Failed err => Returns (None, Some err)
  | Ok kubeContext =>
      let kubeContext := effectiveContext kubeContext overrideKubeContext in
      match cloudconfig_ParseProviderConfig E with
      | Failed err => Returns (None, Some err)
      | Ok cloudConfigData =>
          let providerName :=
            match kubeconfig_GetSpaceID E kubeContext with
            | Ok (_, providerName) => providerName
            | Failed _ =>
                (* use global provider config as fallback *)
                if negb (String.eqb (Default E cloudConfigData) "")
                then Default E cloudConfigData
                else cloudconfig_DevSpaceCloudProviderName E
            end in
          match cloudconfig_GetProvider E cloudConfigData providerName with
          | None => Returns (None, None)
          | Some provider =>
              if String.eqb (Token provider) "" then Returns (None, None)
              else match cloudtoken_GetAccountName E (Token provider) with
                   | Failed _ => Returns (None, None)
                   | Ok accountName => Returns (Some accountName, None)
                   end
          end
      end
  end.

(** [PredefinedVars] as the package initialises it: every [Value] is
    [nil]. *)
Definition PredefinedVars : gmap string predefinedVarDefinition :=
  list_to_map [
    ("DEVSPACE_RANDOM",
      {| Value := None; ErrorMessage := ""; Fill := fillRandom |});
    ("DEVSPACE_TIMESTAMP",
      {| Value := None; ErrorMessage := ""; Fill := fillTimestamp |});
    ("DEVSPACE_GIT_COMMIT",
      {| Value := None;
         ErrorMessage :=
           "No git repository found, but predefined var DEVSPACE_GIT_COMMIT is used";
         Fill := fillGitCommit |});
    ("DEVSPACE_SPACE",
      {| Value := None;
         ErrorMessage :=
           "Current context is not a space, but predefined var DEVSPACE_SPACE is used."
           +:+ remedySpaces;
         Fill := fillSpace |});
    ("DEVSPACE_SPACE_NAMESPACE",
      {| Value := None;
         ErrorMessage :=
           "Current context is not a space, but predefined var DEVSPACE_SPACE_NAMESPACE is used."
           +:+ remedySpaces;
         Fill := fillSpaceNamespace |});
    ("DEVSPACE_USERNAME",
      {| Value := None;
         ErrorMessage :=
           "You are not logged into DevSpace Cloud, but predefined var DEVSPACE_USERNAME is used."
           +:+ nl +:+ nl +:+ "Please run: " +:+ nl
           +:+ "- `" +:+ ansi_Color E "devspace login" "white+b"
           +:+ "` to login into devspace cloud. Alternatively you can also remove the variable ${DEVSPACE_USERNAME} from your config";
         Fill := fillUsername |})
  ].

End Registry.

(** ** Package state and the monad of the two functions

    The package state is the registry; [invoked] is a ghost log of the
    resolvers called so far, in call order. A computation can return or
    panic, and in both cases leaves a state behind. *)

Record state : Type := {
  vars : gmap string predefinedVarDefinition;
  invoked : list string
}.

Definition M (A : Type) : Type := state -> outcome A * state.

#[export] Instance M_ret : MRet M := fun A a s => (Returns a, s).

#[export] Instance M_bind : MBind M := fun A B f c s =>
  match c s with
  | (Returns a, s') => f a s'
  | (Panics, s') => (Panics, s')
  end.

(** Reads the registry. *)
Definition registry : M (gmap string predefinedVarDefinition) :=
  fun s => (Returns (vars s), s).

(** Calls the resolver of [varName] and logs the call. *)
Definition callFill (varName : string) (d : predefinedVarDefinition)
    (kubeContext : string) : M (option string * option error) :=
  fun s => (Fill d kubeContext,
            {| vars := vars s; invoked := invoked s ++ [varName] |}).

(** Assigns the [Value] field of the definition registered as [varName]. *)
Definition assignValue (varName : string) (val : option string) : M unit :=
  fun s => (Returns tt,
            {| vars := alter (fun d => setValue d val) varName (vars s);
               invoked := invoked s |}).

(** A pure call that may panic. *)
Definition eval {A : Type} (o : outcome A) : M A := fun s => (o, s).

(** ** fillPredefinedVars

    Go leaves the iteration order of a map unspecified: [order] is the
    order in which this run of the [range] loop meets the keys. *)
Fixpoint fillPredefinedVars (order : list string) (overrideKubeContext : string)
  : M (option error) :=
  match order with
  | [] => mret None
  | varName :: rest =>
      PredefinedVars ← registry;
      match PredefinedVars !! varName with
      | None => fillPredefinedVars rest overrideKubeContext
      | Some predefinedVariable =>
          '(val, err) ← callFill varName predefinedVariable overrideKubeContext;
          match err with
          | Some err => mret (Some (Wrap err ("fill predefined var " +:+ varName)))
          | None =>
              assignValue varName val;;
              fillPredefinedVars rest overrideKubeContext
          end
      end
  end.

(** An order in which a [range] over the registry can meet its keys:
    every key once. *)
Definition rangeOrder (registered : gmap string predefinedVarDefinition)
    (order : list string) : Prop :=
  order ≡ₚ (map_to_list registered).*1.

(** ** getPredefinedVar *)

Definition spaceDomainPrefix : string := "DEVSPACE_SPACE_DOMAIN".

Definition noSpaceConfigured (E : Externals) (name : string) : error :=
  Errorf ("No space configured, but predefined var %s is used."
          +:+ nl +:+ nl +:+ "Please run: " +:+ nl
          +:+ "- `%s` to create a new space" +:+ nl
          +:+ "- `%s` to use an existing space" +:+ nl
          +:+ "- `%s` to list existing spaces")
         [ArgS name;
          ArgS (ansi_Color E "devspace create space [NAME]" "white+b");
          ArgS (ansi_Color E "devspace use space [NAME]" "white+b");
          ArgS (ansi_Color E "devspace list spaces" "white+b")].

Definition getPredefinedVar (E : Externals) (name overrideKubeContext : string)
  : M (bool * string * option error) :=
  PredefinedVars ← registry;
  match PredefinedVars !! Strings.ToUpper name with
  | Some variable =>
      match Value variable with
      | None => mret (false, "", Some (New (ErrorMessage variable)))
      | Some value => mret (true, value, None)
      end
  | None =>
      (* Load space domain environment variable *)
      if Strings.HasPrefix (Strings.ToUpper name) spaceDomainPrefix then
        suffix ← eval (Slice.from (String.length spaceDomainPrefix) name);
        let '(idx, err) := Strconv.Atoi suffix in
        match err with
        | Some err =>
            mret (false, "",
                  Some (Errorf "Error parsing variable %s: %v" [ArgS name; ArgV err]))
        | None =>
        match kubeconfig_GetCurrentContext E with
        | Failed err => mret (false, "", Some (Wrap err "get current context"))
        | Ok kubeContext =>
        let kubeContext := effectiveContext kubeContext overrideKubeContext in
        match kubeconfig_GetSpaceID E kubeContext with
        | Failed _ => mret (false, "", Some (noSpaceConfigured E name))
        | Ok (spaceID, providerName) =>
        match cloudconfig_ParseProviderConfig E with
        | Failed err => mret (false, "", Some (Wrap err "parse provider config"))
        | Ok cloudConfigData =>
        match cloudconfig_GetProvider E cloudConfigData providerName with
        | None =>
            mret (false, "",
                  Some (Errorf "Couldn't find space provider: %s" [ArgS providerName]))
        | Some provider =>
        match Spaces provider with
        | None => mret (false, "", Some (noSpaceConfigured E name))
        | Some spaces =>
        match spaces !! spaceID with
        | None => mret (false, "", Some (noSpaceConfigured E name))
        | Some cached =>
            let domains := Domains (Space cached) in
            if Z.of_nat (length domains) <=? Strconv.wrapInt (idx - 1) then
              mret (false, "",
                    Some (Errorf
                            "Error loading %s: Space has %d domains but domain with number %d was requested"
                            [ArgS name; ArgD (Z.of_nat (length domains)); ArgD idx]))
            else
              domain ← eval (Slice.index domains (Strconv.wrapInt (idx - 1)));
              mret (true, URL domain, None)
        end end end end end end end
      else mret (false, "", None)
  end.

(** ** The command [devspace update dependencies] (package [update])

    [RunDependencies] strings together the config loader and the
    dependency manager. Both are collaborators: [Collaborators] holds what
    their calls answer in one run of the command, and the run is returned
    with the list of the calls it made and the messages it logged, in
    order. The factory calls that build the log, the options and the
    loader cannot fail and are left out of the list. *)

Module Update.

Inductive event : Type :=
| SetDevSpaceRoot
| Load
| UpdateAll
| Donef (format : string).

Record Collaborators : Type := {
  DevSpaceConfig : Type;
  message_ConfigNotFound : string;
  configLoader_SetDevSpaceRoot : bool * option error;
  configLoader_Load : DevSpaceConfig * option error;
  manager_UpdateAll : DevSpaceConfig -> option error
}.

Definition RunDependencies (C : Collaborators) : option error * list event :=
  let '(configExists, err) := configLoader_SetDevSpaceRoot C in
  match err with
  | Some err => (Some err, [SetDevSpaceRoot])
  | None =>
      if negb configExists
      then (Some (New (message_ConfigNotFound C)), [SetDevSpaceRoot])
      else
        (* Get the config *)
        let '(config, err) := configLoader_Load C in
        match err with
        | Some err => (Some err, [SetDevSpaceRoot; Load])
        | None =>
            (* Update dependencies *)
            match manager_UpdateAll C config with
            | Some err => (Some err, [SetDevSpaceRoot; Load; UpdateAll])
            | None =>
                (None, [SetDevSpaceRoot; Load; UpdateAll;
                        Donef "Successfully updated all dependencies"])
            end
        end
  end.

(** A project with its config in place and dependencies that update. *)
Definition sample : Collaborators :=
  {| DevSpaceConfig := unit;
     message_ConfigNotFound := "Couldn't find a DevSpace configuration";
     configLoader_SetDevSpaceRoot := (true, None);
     configLoader_Load := (tt, None);
     manager_UpdateAll := fun _ => None |}.

(** The same project without a config at its root. *)
Definition noConfig : Collaborators :=
  {| DevSpaceConfig := unit;
     message_ConfigNotFound := "Couldn't find a DevSpace configuration";
     configLoader_SetDevSpaceRoot := (false, None);
     configLoader_Load := (tt, None);
     manager_UpdateAll := fun _ => None |}.

End Update.

(** ** Vocabulary of the properties *)

(** The world [E] with another answer to [kubeconfig.GetCurrentContext]. *)
Definition withCurrentContext (E : Externals) (current : result string) : Externals :=
  {| Config := Config E;
     Default := Default E;
     ansi_Color := ansi_Color E;
     randutil_GenerateRandomString := randutil_GenerateRandomString E;
     time_Now_Unix := time_Now_Unix E;
     git_GetHash := git_GetHash E;
     kubeconfig_GetCurrentContext := current;
     kubeconfig_IsCloudSpace := kubeconfig_IsCloudSpace E;
     kubeconfig_GetSpaceID := kubeconfig_GetSpaceID E;
     cloudconfig_ParseProviderConfig := cloudconfig_ParseProviderConfig E;
     cloudconfig_GetProvider := cloudconfig_GetProvider E;
     cloudconfig_DevSpaceCloudProviderName := cloudconfig_DevSpaceCloudProviderName E;
     cloudtoken_GetAccountName := cloudtoken_GetAccountName E |}.

(** What the resolver registered as [name] returns in the world [E]. *)
Definition resolve (E : Externals) (name overrideKubeContext : string)
  : option (outcome (option string * option error)) :=
  (fun d => Fill d overrideKubeContext) <$> PredefinedVars E !! name.

(** In the state [s], the resolver registered as [k] returns [r]. *)
Definition resolverReturns (s : state) (overrideKubeContext k : string)
    (r : outcome (option string * option error)) : Prop :=
  (fun d => Fill d overrideKubeContext) <$> vars s !! k = Some r.

(** The chain of a parametric lookup, from the current context to the
    record of the space: every link answers, and the space is [cached]. *)
Definition resolvesToSpace (E : Externals) (overrideKubeContext : string)
    (cached : spaceCache) : Prop :=
  exists kubeContext spaceID providerName cloudConfigData provider spaces,
    kubeconfig_GetCurrentContext E = Ok kubeContext
    /\ kubeconfig_GetSpaceID E (effectiveContext kubeContext overrideKubeContext)
       = Ok (spaceID, providerName)
    /\ cloudconfig_ParseProviderConfig E = Ok cloudConfigData
    /\ cloudconfig_GetProvider E cloudConfigData providerName = Some provider
    /\ Spaces provider = Some spaces
    /\ spaces !! spaceID = Some cached.

(** The failures of a collaborator that the resolvers of [DEVSPACE_SPACE]
    and [DEVSPACE_GIT_COMMIT] answer with [return nil, nil]: the failing
    call is reached and returns an error. *)
Inductive suppressedFailure (E : Externals) (overrideKubeContext : string)
  : string -> Prop :=
| currentContextFails err :
    kubeconfig_GetCurrentContext E = Failed err ->
    suppressedFailure E overrideKubeContext "DEVSPACE_SPACE"
| cloudSpaceCheckFails kubeContext err :
    kubeconfig_GetCurrentContext E = Ok kubeContext ->
    kubeconfig_IsCloudSpace E (effectiveContext kubeContext overrideKubeContext)
    = Failed err ->
    suppressedFailure E overrideKubeContext "DEVSPACE_SPACE"
| providerConfigFails kubeContext spaceID providerName err :
    kubeconfig_GetCurrentContext E = Ok kubeContext ->
    kubeconfig_IsCloudSpace E (effectiveContext kubeContext overrideKubeContext)
    = Ok true ->
    kubeconfig_GetSpaceID E (effectiveContext kubeContext overrideKubeContext)
    = Ok (spaceID, providerName) ->
    cloudconfig_ParseProviderConfig E = Failed err ->
    suppressedFailure E overrideKubeContext "DEVSPACE_SPACE"
| repositoryHashFails err :
    git_GetHash E = Failed err ->
    suppressedFailure E overrideKubeContext "DEVSPACE_GIT_COMMIT".

(** An error with the strings it quotes in upper case: two errors with the
    same image differ at most in the letter case of what they quote. *)
Fixpoint quotedUpper (e : error) : error :=
  match e with
  | New message => New message
  | Wrap cause message => Wrap (quotedUpper cause) message
  | Errorf format args =>
      Errorf format
        (map (fun a =>
                match a with
                | ArgS s => ArgS (Strings.ToUpper s)
                | ArgD n => ArgD n
                | ArgV e' => ArgV (quotedUpper e')
                end) args)
  | NumError Func Num Err => NumError Func (Strings.ToUpper Num) (quotedUpper Err)
  end.

Definition atoiQuotedUpper (r : Z * option error) : Z * option error :=
  (fst r, quotedUpper <$> snd r).

Definition resultQuotedUpper (r : outcome (bool * string * option error) * state)
  : outcome (bool * string * option error) * state :=
  match r with
  | (Returns (found, value, err), s) => (Returns (found, value, quotedUpper <$> err), s)
  | (Panics, s) => (Panics, s)
  end.

(** The state after the resolver of [k] was called. *)
Definition called (k : string) (s : state) : state :=
  {| vars := vars s; invoked := invoked s ++ [k] |}.

(** The state after the resolver of [k] was called and its value stored. *)
Definition stored (k : string) (val : option string) (s : state) : state :=
  {| vars := alter (fun d => setValue d val) k (vars s);
     invoked := invoked s ++ [k] |}.

(** The names of the registry. *)
Definition staticNames : list string :=
  [ "DEVSPACE_RANDOM"; "DEVSPACE_TIMESTAMP"; "DEVSPACE_GIT_COMMIT";
    "DEVSPACE_SPACE"; "DEVSPACE_SPACE_NAMESPACE"; "DEVSPACE_USERNAME" ].

(** Two definitions that differ in their [Value] at most, and two
    registries with the same names and such definitions. *)
Definition sameDefinition (d d0 : predefinedVarDefinition) : Prop :=
  ErrorMessage d = ErrorMessage d0 /\ Fill d = Fill d0.

Definition sameDefinitions (m m0 : gmap string predefinedVarDefinition) : Prop :=
  forall k, option_Forall2 sameDefinition (m !! k) (m0 !! k).

(** The states the registry of the world [E] can be in: the definitions of
    [PredefinedVars E] with any [Value]s. *)
Definition registryState (E : Externals)
    (m : gmap string predefinedVarDefinition) : Prop :=
  sameDefinitions m (PredefinedVars E).

(** The ways the chain of a parametric lookup of [name] can break, each
    with the error the lookup returns for it. *)
Inductive chainError (E : Externals) (overrideKubeContext name : string)
  : error -> Prop :=
| contextUnreadable err :
    kubeconfig_GetCurrentContext E = Failed err ->
    chainError E overrideKubeContext name (Wrap err "get current context")
| contextIsNoSpace kubeContext err :
    kubeconfig_GetCurrentContext E = Ok kubeContext ->
    kubeconfig_GetSpaceID E (effectiveContext kubeContext overrideKubeContext)
    = Failed err ->
    chainError E overrideKubeContext name (noSpaceConfigured E name)
| providerConfigUnreadable kubeContext spaceID providerName err :
    kubeconfig_GetCurrentContext E = Ok kubeContext ->
    kubeconfig_GetSpaceID E (effectiveContext kubeContext overrideKubeContext)
    = Ok (spaceID, providerName) ->
    cloudconfig_ParseProviderConfig E = Failed err ->
    chainError E overrideKubeContext name (Wrap err "parse provider config")
| providerUnknown kubeContext spaceID providerName cloudConfigData :
    kubeconfig_GetCurrentContext E = Ok kubeContext ->
    kubeconfig_GetSpaceID E (effectiveContext kubeContext overrideKubeContext)
    = Ok (spaceID, providerName) ->
    cloudconfig_ParseProviderConfig E = Ok cloudConfigData ->
    cloudconfig_GetProvider E cloudConfigData providerName = None ->
    chainError E overrideKubeContext name
      (Errorf "Couldn't find space provider: %s" [ArgS providerName])
| providerWithoutSpaces kubeContext spaceID providerName cloudConfigData provider :
    kubeconfig_GetCurrentContext E = Ok kubeContext ->
    kubeconfig_GetSpaceID E (effectiveContext kubeContext overrideKubeContext)
    = Ok (spaceID, providerName) ->
    cloudconfig_ParseProviderConfig E = Ok cloudConfigData ->
    cloudconfig_GetProvider E cloudConfigData providerName = Some provider ->
    Spaces provider = None ->
    chainError E overrideKubeContext name (noSpaceConfigured E name)
| spaceUnknown kubeContext spaceID providerName cloudConfigData provider spaces :
    kubeconfig_GetCurrentContext E = Ok kubeContext ->
    kubeconfig_GetSpaceID E (effectiveContext kubeContext overrideKubeContext)
    = Ok (spaceID, providerName) ->
    cloudconfig_ParseProviderConfig E = Ok cloudConfigData ->
    cloudconfig_GetProvider E cloudConfigData providerName = Some provider ->
    Spaces provider = Some spaces ->
    spaces !! spaceID = None ->
    chainError E overrideKubeContext name (noSpaceConfigured E name).

(** ** A sample world

    A machine whose current context is [minikube] and which knows one
    space, number 7 of provider [app.devspace.cloud], reached through the
    context [devspace-space]; the space has two domains. *)

Module Sample.

Definition domains : list spaceDomain :=
  [ {| URL := "one.devspace.host" |}; {| URL := "two.devspace.host" |} ].

Definition cached : spaceCache :=
  {| Space := {| Name := "myspace"; Domains := domains |};
     ServiceAccount := {| Namespace := "myspace-ns" |} |}.

Definition cloud : provider :=
  {| Token := "token"; Spaces := Some {[ 7 := cached ]} |}.

Definition world : Externals :=
  {| Config := unit;
     Default := fun _ => "";
     ansi_Color := fun text _ => text;
     randutil_GenerateRandomString := fun _ => Ok "qwerty";
     time_Now_Unix := 1570000000;
     git_GetHash := Ok "0123456789abcdef0123456789abcdef01234567";
     kubeconfig_GetCurrentContext := Ok "minikube";
     kubeconfig_IsCloudSpace := fun c => Ok (String.eqb c "devspace-space");
     kubeconfig_GetSpaceID := fun c =>
       if String.eqb c "devspace-space" then Ok (7, "app.devspace.cloud")
       else Failed (New "context is not a space");
     cloudconfig_ParseProviderConfig := Ok tt;
     cloudconfig_GetProvider := fun _ n =>
       if String.eqb n "app.devspace.cloud" then Some cloud else None;
     cloudconfig_DevSpaceCloudProviderName := "app.devspace.cloud";
     cloudtoken_GetAccountName := fun _ => Ok "alice" |}.

Definition order : list string :=
  [ "DEVSPACE_TIMESTAMP"; "DEVSPACE_SPACE"; "DEVSPACE_RANDOM";
    "DEVSPACE_USERNAME"; "DEVSPACE_GIT_COMMIT"; "DEVSPACE_SPACE_NAMESPACE" ].

(** The package state before any pass. *)
Definition initial : state :=
  {| vars := PredefinedVars world; invoked := [] |}.

(** The same machine without a readable kube config. *)
Definition noContext : Externals :=
  withCurrentContext world (Failed (New "kube config not found")).

Definition initialNoContext : state :=
  {| vars := PredefinedVars noContext; invoked := [] |}.

(** What the registry holds for [DEVSPACE_GIT_COMMIT] before any pass. *)
Definition gitCommit : predefinedVarDefinition :=
  {| Value := None;
     ErrorMessage :=
       "No git repository found, but predefined var DEVSPACE_GIT_COMMIT is used";
     Fill := fillGitCommit world |}.

(** The same machine outside of a git repository. *)
Definition noRepository : Externals :=
  {| Config := unit;
     Default := Default world;
     ansi_Color := ansi_Color world;
     randutil_GenerateRandomString := randutil_GenerateRandomString world;
     time_Now_Unix := time_Now_Unix world;
     git_GetHash := Failed (New "repository does not exist");
     kubeconfig_GetCurrentContext := kubeconfig_GetCurrentContext world;
     kubeconfig_IsCloudSpace := kubeconfig_IsCloudSpace world;
     kubeconfig_GetSpaceID := kubeconfig_GetSpaceID world;
     cloudconfig_ParseProviderConfig := cloudconfig_ParseProviderConfig world;
     cloudconfig_GetProvider := cloudconfig_GetProvider world;
     cloudconfig_DevSpaceCloudProviderName :=
       cloudconfig_DevSpaceCloudProviderName world;
     cloudtoken_GetAccountName := cloudtoken_GetAccountName world |}.



(** A machine whose context passes the cloud-space check but carries no
    space identifier. *)
Definition staleSpace : Externals :=
  {| Config := unit;
     Default := Default world;
     ansi_Color := ansi_Color world;
     randutil_GenerateRandomString := randutil_GenerateRandomString world;
     time_Now_Unix := time_Now_Unix world;
     git_GetHash := git_GetHash world;
     kubeconfig_GetCurrentContext := kubeconfig_GetCurrentContext world;
     kubeconfig_IsCloudSpace := fun _ => Ok true;
     kubeconfig_GetSpaceID := fun _ => Failed (New "no space id in context");
     cloudconfig_ParseProviderConfig := cloudconfig_ParseProviderConfig world;
     cloudconfig_GetProvider := cloudconfig_GetProvider world;
     cloudconfig_DevSpaceCloudProviderName :=
       cloudconfig_DevSpaceCloudProviderName world;
     cloudtoken_GetAccountName := cloudtoken_GetAccountName world |}.

(** Another order in which the loop can meet the names. *)
Definition order' : list string :=
  [ "DEVSPACE_USERNAME"; "DEVSPACE_GIT_COMMIT"; "DEVSPACE_SPACE_NAMESPACE";
    "DEVSPACE_RANDOM"; "DEVSPACE_SPACE"; "DEVSPACE_TIMESTAMP" ].

(** The package state after a pass with the context of the space. *)
Definition filled : state :=
  snd (fillPredefinedVars order "devspace-space" initial).

End Sample.

(** * Properties *)

(** ** Running the monad *)

Lemma run_bind {A B : Type} (c : M A) (f : A -> M B) (s : state) :
  (c ≫= f) s =
  match c s with
  | (Returns a, s') => f a s'
  | (Panics, s') => (Panics, s')
  end.
Proof. reflexivity. Qed.

Lemma run_ret {A : Type} (a : A) (s : state) : mret (M := M) a s = (Returns a, s).
Proof. reflexivity. Qed.

(** Unfolds a lookup down to the case analysis of its body. *)
Ltac unfold_lookup :=
  unfold getPredefinedVar; rewrite ?run_bind; cbn [registry eval fst snd].

(** ** The lookup reads the registry and never writes it *)

Lemma getPredefinedVar_state (E : Externals) (name overrideKubeContext : string)
    (s : state) :
  snd (getPredefinedVar E name overrideKubeContext s) = s.
Proof.
  unfold_lookup.
  repeat (case_match; try rewrite run_bind; try rewrite run_ret;
          cbn [eval fst snd]; try reflexivity).
Qed.

(** C7: a lookup of a parametric name, like any lookup, hands the package
    state back as it received it, whatever the result of the lookup: no
    [Value] of a static variable is written or cleared, whether the
    parametric resolution succeeds, fails or panics. *)
Theorem parametric_lookup_leaves_cache (E : Externals)
    (name overrideKubeContext : string) (s : state) :
  forall r s',
    getPredefinedVar E name overrideKubeContext s = (r, s') ->
    s' = s /\ forall k, Value <$> (vars s' !! k) = Value <$> (vars s !! k).
Proof.
  intros r s' Hrun.
  assert (Hs : s' = s).
  { rewrite <- (getPredefinedVar_state E name overrideKubeContext s).
    now rewrite Hrun. }
  subst s'. split; [reflexivity | intros k; reflexivity].
Qed.

Lemma parametric_lookup_leaves_cache_witness :
  getPredefinedVar Sample.world "devspace_space_domain1" "devspace-space" Sample.initial
  = (Returns (true, "one.devspace.host", None), Sample.initial)
  /\ (Sample.initial = Sample.initial
      /\ forall k, Value <$> (vars Sample.initial !! k)
                   = Value <$> (vars Sample.initial !! k)).
Proof.
  split; [reflexivity|].
  apply (parametric_lookup_leaves_cache
           Sample.world "devspace_space_domain1" "devspace-space" Sample.initial
           (Returns (true, "one.devspace.host", None)) Sample.initial).
  reflexivity.
Defined.

(** ** Strings: upper-casing and prefixes *)

Lemma ToUpper_length (s : string) :
  String.length (Strings.ToUpper s) = String.length s.
Proof. induction s as [|c s IH]; cbn; [reflexivity | now rewrite IH]. Qed.

Lemma prefix_length (p s : string) :
  String.prefix p s = true -> (String.length p <= String.length s)%nat.
Proof.
  revert s; induction p as [|c p IH]; intros s H; cbn; [lia|].
  destruct s as [|c' s]; cbn in H; [discriminate|].
  destruct (ascii_dec c c'); [|discriminate].
  apply IH in H. cbn. lia.
Qed.

Lemma slice_after_prefix (name : string) :
  Strings.HasPrefix (Strings.ToUpper name) spaceDomainPrefix = true ->
  Slice.from (String.length spaceDomainPrefix) name
  = Returns (Strings.dropBytes (String.length spaceDomainPrefix) name).
Proof.
  intros H. apply prefix_length in H. rewrite ToUpper_length in H.
  unfold Slice.from. destruct (Nat.leb_spec (String.length spaceDomainPrefix)
                                            (String.length name)); [reflexivity | lia].
Qed.

Lemma upperByte_idem (c : ascii) :
  Strings.upperByte (Strings.upperByte c) = Strings.upperByte c.
Proof.
  destruct c as [[] [] [] [] [] [] [] []]; reflexivity.
Qed.

Lemma ToUpper_idem (s : string) :
  Strings.ToUpper (Strings.ToUpper s) = Strings.ToUpper s.
Proof.
  induction s as [|c s IH]; cbn; [reflexivity|].
  now rewrite upperByte_idem, IH.
Qed.

Lemma ToUpper_dropBytes (n : nat) (s : string) :
  Strings.ToUpper (Strings.dropBytes n s) = Strings.dropBytes n (Strings.ToUpper s).
Proof.
  revert s; induction n as [|n IH]; intros [|c s]; cbn; auto.
Qed.

(** ** The names of the registry *)

Lemma PredefinedVars_names (E : Externals) (k : string) :
  is_Some (PredefinedVars E !! k) <-> k ∈ staticNames.
Proof.
  split.
  - intros [d H]. apply elem_of_list_to_map_2 in H.
    unfold staticNames. set_unfold.
    repeat (destruct H as [H|H];
            [injection H as -> _; solve [repeat ((left; reflexivity) || right)]|]).
    destruct H.
  - intros H. unfold staticNames in H. set_unfold.
    destruct H as [->|[->|[->|[->|[->|[->|[]]]]]]]; eexists; reflexivity.
Qed.

Lemma staticNames_not_parametric (k : string) :
  k ∈ staticNames -> Strings.HasPrefix k spaceDomainPrefix = false.
Proof.
  unfold staticNames. set_unfold.
  intros [->|[->|[->|[->|[->|[->|[]]]]]]]; reflexivity.
Qed.

Lemma sameDefinitions_refl m : sameDefinitions m m.
Proof. intros k. destruct (m !! k); constructor. now split. Qed.

Lemma sameDefinitions_trans m1 m2 m3 :
  sameDefinitions m1 m2 -> sameDefinitions m2 m3 -> sameDefinitions m1 m3.
Proof.
  intros H12 H23 k. specialize (H12 k). specialize (H23 k).
  destruct H12 as [d1 d2 [Hm Hf]|]; inversion H23 as [? d3 [Hm' Hf'] |]; subst;
    constructor.
  split; congruence.
Qed.

Lemma sameDefinitions_alter m k val :
  sameDefinitions (alter (fun d => setValue d val) k m) m.
Proof.
  intros k'. rewrite lookup_alter.
  destruct (decide (k = k')) as [->|]; destruct (m !! k'); constructor; now split.
Qed.

Lemma registryState_initial (E : Externals) : registryState E (PredefinedVars E).
Proof. apply sameDefinitions_refl. Qed.

Lemma registryState_names (E : Externals) m k :
  registryState E m -> is_Some (m !! k) <-> k ∈ staticNames.
Proof.
  intros H. rewrite <- (PredefinedVars_names E).
  destruct (H k); split; intros [? ?]; eauto; discriminate.
Qed.

Lemma registryState_parametric (E : Externals) m (name : string) :
  registryState E m ->
  Strings.HasPrefix (Strings.ToUpper name) spaceDomainPrefix = true ->
  m !! Strings.ToUpper name = None.
Proof.
  intros Hm Hp. destruct (m !! Strings.ToUpper name) eqn:Hk; [|reflexivity].
  assert (Hin : Strings.ToUpper name ∈ staticNames)
    by (apply (registryState_names E m); eauto).
  apply staticNames_not_parametric in Hin. congruence.
Qed.

(** ** One turn of the loop of fillPredefinedVars *)

Section FillSteps.

Variables (k : string) (rest : list string) (overrideKubeContext : string).
Variable s : state.

Lemma fill_skip :
  vars s !! k = None ->
  fillPredefinedVars (k :: rest) overrideKubeContext s
  = fillPredefinedVars rest overrideKubeContext s.
Proof.
  intros Hk. cbn [fillPredefinedVars]. rewrite run_bind. cbn [registry].
  now rewrite Hk.
Qed.

Variable d : predefinedVarDefinition.
Hypothesis Hk : vars s !! k = Some d.

Lemma fill_step_stored (val : option string) :
  Fill d overrideKubeContext = Returns (val, None) ->
  fillPredefinedVars (k :: rest) overrideKubeContext s
  = fillPredefinedVars rest overrideKubeContext (stored k val s).
Proof.
  intros HF. cbn [fillPredefinedVars]. rewrite run_bind. cbn [registry].
  rewrite Hk, run_bind. unfold callFill. rewrite HF.
  rewrite run_bind. reflexivity.
Qed.

Lemma fill_step_failed (val : option string) (err : error) :
  Fill d overrideKubeContext = Returns (val, Some err) ->
  fillPredefinedVars (k :: rest) overrideKubeContext s
  = (Returns (Some (Wrap err ("fill predefined var " +:+ k))), called k s).
Proof.
  intros HF. cbn [fillPredefinedVars]. rewrite run_bind. cbn [registry].
  rewrite Hk, run_bind. unfold callFill. rewrite HF. reflexivity.
Qed.

Lemma fill_step_panics :
  Fill d overrideKubeContext = Panics ->
  fillPredefinedVars (k :: rest) overrideKubeContext s = (Panics, called k s).
Proof.
  intros HF. cbn [fillPredefinedVars]. rewrite run_bind. cbn [registry].
  rewrite Hk, run_bind. unfold callFill. rewrite HF. reflexivity.
Qed.

End FillSteps.

Lemma stored_lookup (k k' : string) (val : option string) (s : state) :
  vars (stored k val s) !! k'
  = if decide (k = k') then (fun d => setValue d val) <$> vars s !! k'
    else vars s !! k'.
Proof.
  cbn [stored vars]. rewrite lookup_alter. destruct (decide (k = k')) as [->|]; reflexivity.
Qed.

(** What a range order is: every registered name, once. *)
Lemma rangeOrder_spec (m : gmap string predefinedVarDefinition) (order : list string) :
  rangeOrder m order ->
  NoDup order /\ forall k, k ∈ order <-> is_Some (m !! k).
Proof.
  unfold rangeOrder. intros HP. split.
  - rewrite HP. apply NoDup_fst_map_to_list.
  - intros k. rewrite HP, list_elem_of_fmap. split.
    + intros [[k' d] [-> Hin]]. apply elem_of_map_to_list in Hin. eauto.
    + intros [d Hd]. exists (k, d). split; [reflexivity|].
      now apply elem_of_map_to_list.
Qed.

(** ** The pass as a whole *)

(** A pass, however it ends, changes nothing of the registry but
    [Value]s. *)
Lemma fill_sameDefinitions (order : list string) (overrideKubeContext : string) :
  forall s,
    sameDefinitions (vars (snd (fillPredefinedVars order overrideKubeContext s)))
                    (vars s).
Proof.
  induction order as [|k rest IH]; intros s.
  - apply sameDefinitions_refl.
  - destruct (vars s !! k) as [d|] eqn:Hk.
    + destruct (Fill d overrideKubeContext) as [[val [err|]]|] eqn:HF.
      * rewrite (fill_step_failed _ _ _ _ _ Hk _ _ HF). apply sameDefinitions_refl.
      * rewrite (fill_step_stored _ _ _ _ _ Hk _ HF).
        eapply sameDefinitions_trans; [apply IH|]. apply sameDefinitions_alter.
      * rewrite (fill_step_panics _ _ _ _ _ Hk HF). apply sameDefinitions_refl.
    + rewrite (fill_skip _ _ _ _ Hk). apply IH.
Qed.

Lemma fill_registryState (E : Externals) (order : list string)
    (overrideKubeContext : string) (s : state) :
  registryState E (vars s) ->
  registryState E (vars (snd (fillPredefinedVars order overrideKubeContext s))).
Proof.
  intros H. eapply sameDefinitions_trans; [apply fill_sameDefinitions | exact H].
Qed.

(** A pass that returns [nil] has called the resolver of every name it met
    and stored what the resolver returned; the other names are as they
    were. *)
Lemma fill_success (order : list string) (overrideKubeContext : string) :
  forall s s',
    fillPredefinedVars order overrideKubeContext s = (Returns None, s') ->
    (forall k d, k ∈ order -> vars s !! k = Some d ->
       exists val, Fill d overrideKubeContext = Returns (val, None)
                   /\ vars s' !! k = Some (setValue d val))
    /\ (forall k, k ∉ order -> vars s' !! k = vars s !! k).
Proof.
  induction order as [|k0 rest IH]; intros s s' Hrun.
  - cbn in Hrun. injection Hrun as <-. split; [|reflexivity].
    intros k d Hin. inversion Hin.
  - destruct (vars s !! k0) as [d0|] eqn:Hk0.
    + destruct (Fill d0 overrideKubeContext) as [[val0 [err|]]|] eqn:HF.
      * rewrite (fill_step_failed _ _ _ _ _ Hk0 _ _ HF) in Hrun. discriminate.
      * rewrite (fill_step_stored _ _ _ _ _ Hk0 _ HF) in Hrun.
        destruct (IH _ _ Hrun) as [Hin Hout]. split.
        -- intros k d Hk Hd. destruct (decide (k ∈ rest)) as [Hr|Hr].
           ++ destruct (decide (k0 = k)) as [->|Hne].
              ** destruct (Hin k (setValue d0 val0) Hr) as [val [HF' Hs']].
                 { rewrite stored_lookup, decide_True, Hk0; reflexivity. }
                 assert (d = d0) by congruence. subst d. exists val. now split.
              ** apply (Hin k d Hr). now rewrite stored_lookup, decide_False.
           ++ assert (k = k0) by (apply elem_of_cons in Hk as [|]; tauto). subst k.
              assert (d = d0) by congruence. subst d. exists val0. split; [exact HF|].
              rewrite (Hout k0 Hr), stored_lookup, decide_True, Hk0; reflexivity.
        -- intros k Hk. rewrite not_elem_of_cons in Hk. destruct Hk as [Hne Hr].
           rewrite (Hout k Hr), stored_lookup, decide_False; [reflexivity|congruence].
      * rewrite (fill_step_panics _ _ _ _ _ Hk0 HF) in Hrun. discriminate.
    + rewrite (fill_skip _ _ _ _ Hk0) in Hrun.
      destruct (IH _ _ Hrun) as [Hin Hout]. split.
      * intros k d Hk Hd. apply Hin; [|exact Hd].
        apply elem_of_cons in Hk as [->|]; [congruence | assumption].
      * intros k Hk. rewrite not_elem_of_cons in Hk. now apply Hout.
Qed.

(** The turns of the loop before the first hard error: when the resolvers
    of the names in [pre] return without one, the loop reaches the names
    after [pre] with [pre] called and stored. *)
Lemma fill_prefix (pre : list string) (overrideKubeContext : string) :
  forall s,
    (forall k, k ∈ pre -> is_Some (vars s !! k)) ->
    (forall k d, k ∈ pre -> vars s !! k = Some d ->
       exists val, Fill d overrideKubeContext = Returns (val, None)) ->
    exists s1,
      (forall rest, fillPredefinedVars (pre ++ rest) overrideKubeContext s
                    = fillPredefinedVars rest overrideKubeContext s1)
      /\ sameDefinitions (vars s1) (vars s)
      /\ (forall k, k ∉ pre -> vars s1 !! k = vars s !! k)
      /\ invoked s1 = invoked s ++ pre.
Proof.
  induction pre as [|k0 pre IH]; intros s Hreg Hok.
  - exists s. split; [reflexivity|]. split; [apply sameDefinitions_refl|].
    split; [reflexivity|]. now rewrite app_nil_r.
  - destruct (Hreg k0) as [d0 Hk0]; [left|].
    destruct (Hok k0 d0) as [val0 HF]; [left | exact Hk0 |].
    destruct (IH (stored k0 val0 s)) as (s1 & Hrun & Hsame & Hframe & Hlog).
    + intros k Hk. rewrite stored_lookup.
      destruct (Hreg k) as [d Hd]; [now right|]. rewrite Hd.
      destruct (decide (k0 = k)); eauto.
    + intros k d Hk Hd. rewrite stored_lookup in Hd.
      destruct (decide (k0 = k)) as [->|].
      * rewrite Hk0 in Hd. injection Hd as <-. eauto.
      * apply (Hok k d); [now right | exact Hd].
    + exists s1. split; [|split; [|split]].
      * intros rest. cbn [app]. now rewrite (fill_step_stored _ _ _ _ _ Hk0 _ HF).
      * eapply sameDefinitions_trans; [exact Hsame|]. apply sameDefinitions_alter.
      * intros k Hk. rewrite not_elem_of_cons in Hk. destruct Hk as [Hne Hk].
        rewrite (Hframe k Hk), stored_lookup, decide_False; [reflexivity|congruence].
      * rewrite Hlog. cbn [stored invoked]. now rewrite <- app_assoc.
Qed.

(** ** Names that are no predefined variables *)



(** ** Static names *)

Lemma static_lookup (E : Externals) (name overrideKubeContext : string)
    (s : state) (d : predefinedVarDefinition) :
  vars s !! Strings.ToUpper name = Some d ->
  getPredefinedVar E name overrideKubeContext s
  = match Value d with
    | None => (Returns (false, "", Some (New (ErrorMessage d))), s)
    | Some value => (Returns (true, value, None), s)
    end.
Proof.
  intros Hd. unfold_lookup. rewrite Hd. now destruct (Value d).
Qed.

(** C2, as the claim has it, fails: before any pass [DEVSPACE_GIT_COMMIT]
    is a registered name without a value, and its lookup returns the
    unavailability message with [found = false], not [true]. *)
Lemma absent_static_value_is_not_found_true :
  vars Sample.initial !! Strings.ToUpper "devspace_git_commit" = Some Sample.gitCommit
  /\ Value Sample.gitCommit = None
  /\ fst (getPredefinedVar Sample.world "devspace_git_commit" "" Sample.initial)
     = Returns (false, "", Some (New (ErrorMessage Sample.gitCommit)))
  /\ fst (getPredefinedVar Sample.world "devspace_git_commit" "" Sample.initial)
     <> Returns (true, "", Some (New (ErrorMessage Sample.gitCommit))).
Proof.
  repeat split; try reflexivity. discriminate.
Qed.

(** C2, amended: when the name, in upper case, is registered and its
    [Value] is [nil], the lookup returns [found = false], an empty value
    and an error made of the [ErrorMessage] of that variable. After a pass
    that returned no error, the lookup of the name returns either
    [(true, value, nil)] or that error, and so never the not-recognized
    outcome [(false, "", nil)]. *)
Theorem static_lookup_recognized (E : Externals) (name overrideKubeContext : string)
    (s : state) (d : predefinedVarDefinition) :
  vars s !! Strings.ToUpper name = Some d ->
  (Value d = None ->
   getPredefinedVar E name overrideKubeContext s
   = (Returns (false, "", Some (New (ErrorMessage d))), s))
  /\ (forall order passContext s',
        fillPredefinedVars order passContext s = (Returns None, s') ->
        ((exists value,
            getPredefinedVar E name overrideKubeContext s'
            = (Returns (true, value, None), s'))
         \/ getPredefinedVar E name overrideKubeContext s'
            = (Returns (false, "", Some (New (ErrorMessage d))), s'))
        /\ fst (getPredefinedVar E name overrideKubeContext s')
           <> Returns (false, "", None)).
Proof.
  intros Hd. split.
  - intros Hnil. rewrite (static_lookup _ _ _ _ _ Hd). now rewrite Hnil.
  - intros order passContext s' Hrun.
    pose proof (fill_sameDefinitions order passContext s (Strings.ToUpper name)) as Hsame.
    rewrite Hrun in Hsame. cbn [snd] in Hsame. rewrite Hd in Hsame.
    inversion Hsame as [d' ? [Hmsg _] Hd' |]; subst. symmetry in Hd'.
    rewrite (static_lookup _ _ _ _ _ Hd'), Hmsg.
    destruct (Value d'); split; eauto; discriminate.
Qed.

Lemma static_lookup_recognized_witness :
  getPredefinedVar Sample.world "devspace_git_commit" "" Sample.initial
  = (Returns (false, "", Some (New (ErrorMessage Sample.gitCommit))), Sample.initial).
Proof.
  apply (static_lookup_recognized Sample.world "devspace_git_commit" ""
           Sample.initial Sample.gitCommit); reflexivity.
Defined.

(** ** The resolution pass *)

Lemma resolverReturns_inv (s : state) (o k : string) r :
  resolverReturns s o k r -> exists d, vars s !! k = Some d /\ Fill d o = r.
Proof.
  unfold resolverReturns. destruct (vars s !! k) as [d|]; [|discriminate].
  cbn. intros [= <-]. eauto.
Qed.

(** C3: in a pass that meets the names in the order [pre ++ v :: post],
    where the resolvers of [pre] return without error and the resolver of
    [v] returns the error [err], the pass returns [err] wrapped with
    [fill predefined var v]; the resolvers called in the pass are those of
    [pre] and of [v], in that order, so none of [post] is called, and the
    registry holds for the names of [post] what it held before. *)
Theorem pass_aborts_at_first_hard_error (s : state) (pre post : list string)
    (v overrideKubeContext : string) (val : option string) (err : error) :
  rangeOrder (vars s) (pre ++ v :: post) ->
  Forall (fun k => exists valk,
            resolverReturns s overrideKubeContext k (Returns (valk, None))) pre ->
  resolverReturns s overrideKubeContext v (Returns (val, Some err)) ->
  exists s',
    fillPredefinedVars (pre ++ v :: post) overrideKubeContext s
    = (Returns (Some (Wrap err ("fill predefined var " +:+ v))), s')
    /\ invoked s' = (invoked s ++ pre ++ [v])
    /\ forall k, k ∈ post -> (k ∉ pre ++ [v]) /\ vars s' !! k = vars s !! k.
Proof.
  intros Horder Hpre Hv.
  destruct (rangeOrder_spec _ _ Horder) as [Hnodup _].
  apply NoDup_app in Hnodup as (_ & Hdisj & Hnodup).
  apply NoDup_cons in Hnodup as [Hv_post _].
  rewrite Forall_forall in Hpre.
  destruct (fill_prefix pre overrideKubeContext s) as (s1 & Hrun & _ & Hframe & Hlog).
  { intros k Hk. destruct (Hpre k Hk) as [valk Hr].
    apply resolverReturns_inv in Hr as (d & Hd & _). eauto. }
  { intros k d Hk Hd. destruct (Hpre k Hk) as [valk Hr].
    apply resolverReturns_inv in Hr as (d' & Hd' & HF).
    exists valk. congruence. }
  apply resolverReturns_inv in Hv as (d & Hd & HF).
  assert (Hv_pre : v ∉ pre).
  { intros Hin. apply (Hdisj v Hin). left. }
  assert (Hd1 : vars s1 !! v = Some d) by (now rewrite (Hframe v Hv_pre)).
  exists (called v s1). split; [|split].
  - rewrite Hrun. apply (fill_step_failed _ _ _ _ _ Hd1 _ _ HF).
  - cbn [called invoked]. rewrite Hlog. now rewrite <- app_assoc.
  - intros k Hk.
    assert (Hk_pre : k ∉ pre).
    { intros Hin. apply (Hdisj k Hin). now right. }
    split.
    + rewrite elem_of_app, list_elem_of_singleton. intros [?| ->]; tauto.
    + cbn [called vars]. now apply Hframe.
Qed.

Lemma pass_aborts_at_first_hard_error_witness :
  exists s',
    fillPredefinedVars Sample.order "" Sample.initialNoContext
    = (Returns (Some (Wrap (New "kube config not found")
                           "fill predefined var DEVSPACE_USERNAME")), s')
    /\ invoked s' = [ "DEVSPACE_TIMESTAMP"; "DEVSPACE_SPACE"; "DEVSPACE_RANDOM";
                      "DEVSPACE_USERNAME" ]
    /\ forall k, k ∈ [ "DEVSPACE_GIT_COMMIT"; "DEVSPACE_SPACE_NAMESPACE" ] ->
                 (k ∉ [ "DEVSPACE_TIMESTAMP"; "DEVSPACE_SPACE"; "DEVSPACE_RANDOM" ]
                      ++ [ "DEVSPACE_USERNAME" ])
                 /\ vars s' !! k = vars Sample.initialNoContext !! k.
Proof.
  apply (pass_aborts_at_first_hard_error Sample.initialNoContext
           [ "DEVSPACE_TIMESTAMP"; "DEVSPACE_SPACE"; "DEVSPACE_RANDOM" ]
           [ "DEVSPACE_GIT_COMMIT"; "DEVSPACE_SPACE_NAMESPACE" ]
           "DEVSPACE_USERNAME" "" None (New "kube config not found")).
  - unfold rangeOrder. apply (bool_decide_unpack _). vm_compute. exact I.
  - repeat constructor; eexists; reflexivity.
  - reflexivity.
Defined.

(** C5: after a pass over the registry that returns no error, every
    registered definition holds as its [Value] what its resolver returned
    in this pass, a string or [nil], whatever [Value] it held before the
    pass. *)
Theorem successful_pass_defines_every_value (s s' : state) (order : list string)
    (overrideKubeContext : string) :
  rangeOrder (vars s) order ->
  fillPredefinedVars order overrideKubeContext s = (Returns None, s') ->
  forall k d,
    vars s !! k = Some d ->
    exists val,
      Fill d overrideKubeContext = Returns (val, None)
      /\ vars s' !! k = Some (setValue d val)
      /\ Value (setValue d val) = val.
Proof.
  intros Horder Hrun k d Hd.
  destruct (rangeOrder_spec _ _ Horder) as [_ Hmem].
  destruct (fill_success _ _ _ _ Hrun) as [Hin _].
  destruct (Hin k d) as (val & HF & Hs'); [apply Hmem; eauto | exact Hd |].
  exists val. repeat split; assumption.
Qed.

Lemma successful_pass_defines_every_value_witness :
  exists val,
    Fill Sample.gitCommit "" = Returns (val, None)
    /\ vars (snd (fillPredefinedVars Sample.order "" Sample.initial))
         !! "DEVSPACE_GIT_COMMIT"
       = Some (setValue Sample.gitCommit val)
    /\ Value (setValue Sample.gitCommit val) = val.
Proof.
  apply (successful_pass_defines_every_value Sample.initial
           (snd (fillPredefinedVars Sample.order "" Sample.initial))
           Sample.order "" ).
  - unfold rangeOrder. apply (bool_decide_unpack _). vm_compute. exact I.
  - reflexivity.
  - reflexivity.
Defined.

(** ** The resolvers *)

(** The resolver a name is registered with. *)
Lemma resolve_unfold (E : Externals) (name overrideKubeContext : string) :
  resolve E name overrideKubeContext =
  if decide ("DEVSPACE_RANDOM" = name) then Some (fillRandom E overrideKubeContext)
  else if decide ("DEVSPACE_TIMESTAMP" = name)
       then Some (fillTimestamp E overrideKubeContext)
  else if decide ("DEVSPACE_GIT_COMMIT" = name)
       then Some (fillGitCommit E overrideKubeContext)
  else if decide ("DEVSPACE_SPACE" = name) then Some (fillSpace E overrideKubeContext)
  else if decide ("DEVSPACE_SPACE_NAMESPACE" = name)
       then Some (fillSpaceNamespace E overrideKubeContext)
  else if decide ("DEVSPACE_USERNAME" = name)
       then Some (fillUsername E overrideKubeContext)
  else None.
Proof.
  unfold resolve, PredefinedVars. cbn [list_to_map foldr uncurry].
  rewrite !lookup_insert, lookup_empty. cbn [fst snd].
  repeat (case_decide; [reflexivity|]). reflexivity.
Qed.

(** C9: when the current-context read, the cloud-space check or the
    provider-config parse fails in a run of the resolver of
    [DEVSPACE_SPACE], or the repository-hash read in a run of the resolver
    of [DEVSPACE_GIT_COMMIT], the resolver returns [nil, nil]: no value
    and no error, so the pass goes on. *)
Theorem suppressed_failure_is_unavailable (E : Externals)
    (overrideKubeContext name : string) :
  suppressedFailure E overrideKubeContext name ->
  resolve E name overrideKubeContext = Some (Returns (None, None)).
Proof.
  intros [err H | c err Hc H | c spaceID providerName err Hc Hs Hid H | err H];
    rewrite resolve_unfold; cbn [decide]; repeat (case_decide; [discriminate|]);
    (case_decide; [|congruence]); f_equal;
    unfold fillSpace, fillGitCommit.
  - now rewrite H.
  - now rewrite Hc, H.
  - now rewrite Hc, Hs, Hid, H.
  - now rewrite H.
Qed.

Lemma suppressed_failure_is_unavailable_witness :
  resolve Sample.noContext "DEVSPACE_SPACE" "" = Some (Returns (None, None))
  /\ resolve Sample.noRepository "DEVSPACE_GIT_COMMIT" "" = Some (Returns (None, None)).
Proof.
  split.
  - apply (suppressed_failure_is_unavailable Sample.noContext "" "DEVSPACE_SPACE").
    apply (currentContextFails _ _ (New "kube config not found")). reflexivity.
  - apply (suppressed_failure_is_unavailable Sample.noRepository ""
             "DEVSPACE_GIT_COMMIT").
    apply (repositoryHashFails _ _ (New "repository does not exist")). reflexivity.
Defined.

(** The one failure of a collaborator that the resolver of [DEVSPACE_SPACE]
    hands on as a hard error: that of [kubeconfig.GetSpaceID]. *)
Lemma space_id_failure_is_hard (E : Externals) (overrideKubeContext : string)
    kubeContext err :
  kubeconfig_GetCurrentContext E = Ok kubeContext ->
  kubeconfig_IsCloudSpace E (effectiveContext kubeContext overrideKubeContext)
  = Ok true ->
  kubeconfig_GetSpaceID E (effectiveContext kubeContext overrideKubeContext)
  = Failed err ->
  resolve E "DEVSPACE_SPACE" overrideKubeContext = Some (Returns (None, Some err)).
Proof.
  intros Hc Hs Hid. rewrite resolve_unfold.
  repeat (case_decide; [discriminate|]). (case_decide; [|congruence]). f_equal.
  unfold fillSpace. now rewrite Hc, Hs, Hid.
Qed.

Lemma append_cons (c : ascii) (s t : string) :
  String c s +:+ t = String c (s +:+ t).
Proof. reflexivity. Qed.

Lemma take_drop_bytes (n : nat) (s : string) :
  Strings.takeBytes n s +:+ Strings.dropBytes n s = s.
Proof.
  revert s; induction n as [|n IH]; intros [|c s];
    cbn [Strings.takeBytes Strings.dropBytes]; try reflexivity.
  now rewrite append_cons, IH.
Qed.

Lemma takeBytes_length (n : nat) (s : string) :
  (n <= String.length s)%nat -> String.length (Strings.takeBytes n s) = n.
Proof.
  revert s; induction n as [|n IH]; intros [|c s] H; cbn in *; try lia.
  rewrite IH; lia.
Qed.

(** C10: when the repository-hash read succeeds, the resolver of
    [DEVSPACE_GIT_COMMIT] returns the first 8 bytes of the hash, provided
    the hash has 8 bytes or more; on a shorter hash the slice expression
    [hash[:8]] panics. *)
Theorem git_commit_is_first_eight_bytes (E : Externals)
    (overrideKubeContext hash : string) :
  git_GetHash E = Ok hash ->
  ((8 <= String.length hash)%nat ->
   exists short rest,
     hash = short +:+ rest /\ String.length short = 8%nat
     /\ resolve E "DEVSPACE_GIT_COMMIT" overrideKubeContext
        = Some (Returns (Some short, None)))
  /\ ((String.length hash < 8)%nat ->
      resolve E "DEVSPACE_GIT_COMMIT" overrideKubeContext = Some Panics).
Proof.
  intros Hhash.
  assert (Hr : resolve E "DEVSPACE_GIT_COMMIT" overrideKubeContext
               = Some (fillGitCommit E overrideKubeContext)).
  { rewrite resolve_unfold. repeat (case_decide; [discriminate|]).
    case_decide; [reflexivity|congruence]. }
  rewrite Hr. unfold fillGitCommit, Slice.upto. rewrite Hhash. split; intros Hlen.
  - exists (Strings.takeBytes 8 hash), (Strings.dropBytes 8 hash).
    split; [symmetry; apply take_drop_bytes|].
    split; [now apply takeBytes_length|].
    destruct (Nat.leb_spec 8 (String.length hash)); [reflexivity|lia].
  - destruct (Nat.leb_spec 8 (String.length hash)); [lia|reflexivity].
Qed.

Lemma git_commit_is_first_eight_bytes_witness :
  exists short rest,
    "0123456789abcdef0123456789abcdef01234567" = short +:+ rest
    /\ String.length short = 8%nat
    /\ resolve Sample.world "DEVSPACE_GIT_COMMIT" "" = Some (Returns (Some short, None)).
Proof.
  apply (git_commit_is_first_eight_bytes Sample.world ""
           "0123456789abcdef0123456789abcdef01234567" eq_refl).
  cbn. lia.
Defined.

(** ** The context override *)








(** ** Parametric names *)

Lemma ToUpper_app (a b : string) :
  Strings.ToUpper (a +:+ b) = Strings.ToUpper a +:+ Strings.ToUpper b.
Proof.
  induction a as [|c a IH]; [reflexivity|].
  rewrite append_cons. cbn [Strings.ToUpper]. now rewrite append_cons, IH.
Qed.

Lemma prefix_app (p s : string) : String.prefix p (p +:+ s) = true.
Proof.
  induction p as [|c p IH]; [now destruct s|].
  rewrite append_cons. cbn [String.prefix].
  destruct (ascii_dec c c); [exact IH | contradiction].
Qed.

Lemma dropBytes_app (p s : string) :
  Strings.dropBytes (String.length p) (p +:+ s) = s.
Proof.
  induction p as [|c p IH]; [reflexivity|].
  rewrite append_cons. exact IH.
Qed.

(** A name made of the reserved prefix, in any letter case, and a suffix is
    no static name; the lookup takes the parametric branch and parses the
    suffix. *)
Lemma parametric_name (E : Externals) (s : state) (p suffix : string) :
  registryState E (vars s) ->
  Strings.ToUpper p = spaceDomainPrefix ->
  vars s !! Strings.ToUpper (p +:+ suffix) = None
  /\ Strings.HasPrefix (Strings.ToUpper (p +:+ suffix)) spaceDomainPrefix = true
  /\ Slice.from (String.length spaceDomainPrefix) (p +:+ suffix) = Returns suffix.
Proof.
  intros Hreg Hp.
  assert (Hpre : Strings.HasPrefix (Strings.ToUpper (p +:+ suffix)) spaceDomainPrefix
                 = true).
  { rewrite ToUpper_app, Hp. apply prefix_app. }
  split; [now apply (registryState_parametric E)|]. split; [exact Hpre|].
  rewrite (slice_after_prefix _ Hpre). f_equal.
  rewrite <- Hp, ToUpper_length. apply dropBytes_app.
Qed.

Lemma wrapInt_small (z : Z) :
  Strconv.minInt64 <= z <= Strconv.maxInt64 -> Strconv.wrapInt z = z.
Proof.
  unfold Strconv.minInt64, Strconv.maxInt64, Strconv.wrapInt. intros H.
  rewrite Z.mod_small; lia.
Qed.

Lemma scanDigits_nonneg (s : string) :
  forall n m, 0 <= n -> Strconv.scanDigits s n = Strconv.ScanOk m -> 0 <= m.
Proof.
  induction s as [|c s IH]; intros n m Hn H; cbn [Strconv.scanDigits] in H.
  - now injection H as <-.
  - destruct (negb (Strconv.isDigit c)); [discriminate|].
    destruct (_ <=? n); [discriminate|].
    destruct (_ <? _); [discriminate|].
    apply (IH (n * 10 + Strconv.digitValue c) m); [|exact H].
    unfold Strconv.digitValue. lia.
Qed.

Lemma Atoi_range (s : string) (idx : Z) :
  Strconv.Atoi s = (idx, None) -> Strconv.minInt64 <= idx <= Strconv.maxInt64.
Proof.
  unfold Strconv.Atoi. destruct s as [|c rest]; [discriminate|]. cbv zeta.
  match goal with |- context [Strconv.ParseUint ?d] => set (digits := d) end.
  destruct (Strconv.ParseUint digits) as [un| |] eqn:Hscan.
  - assert (0 <= un).
    { unfold Strconv.ParseUint in Hscan. destruct digits; [discriminate|].
      apply (scanDigits_nonneg _ 0 un) in Hscan; [exact Hscan | lia]. }
    unfold Strconv.minInt64, Strconv.maxInt64.
    destruct (Ascii.eqb c Strconv.minus); cbn [negb andb].
    + destruct (Z.ltb_spec (2 ^ 63) un); [discriminate|]. intros [= <-]. lia.
    + destruct (Z.leb_spec (2 ^ 63) un); [discriminate|]. intros [= <-]. lia.
  - discriminate.
  - destruct (Ascii.eqb c Strconv.minus); discriminate.
Qed.

Section ParametricLookup.

Variable E : Externals.
Variables (p suffix overrideKubeContext : string) (s : state).
Hypothesis Hreg : registryState E (vars s).
Hypothesis Hp : Strings.ToUpper p = spaceDomainPrefix.

Let name : string := p +:+ suffix.

(** A suffix that [Atoi] refuses is a malformed index. *)
Lemma parametric_malformed_suffix (n : Z) (err : error) :
  Strconv.Atoi suffix = (n, Some err) ->
  getPredefinedVar E name overrideKubeContext s
  = (Returns (false, "",
              Some (Errorf "Error parsing variable %s: %v" [ArgS name; ArgV err])),
     s).
Proof.
  intros Hatoi. destruct (parametric_name E s p suffix Hreg Hp) as (H1 & H2 & H3).
  unfold_lookup. fold name in H1, H2, H3. rewrite H1, H2, run_bind. cbn [eval].
  rewrite H3, Hatoi. reflexivity.
Qed.

Variables (idx : Z) (cached : spaceCache).
Hypothesis Hatoi : Strconv.Atoi suffix = (idx, None).
Hypothesis Hchain : resolvesToSpace E overrideKubeContext cached.

(** Where the suffix is an integer and the chain leads to a space, the
    lookup is the bounds check and the indexing of the domain list. *)
Lemma parametric_indexing :
  getPredefinedVar E name overrideKubeContext s
  = if Z.of_nat (length (Domains (Space cached))) <=? Strconv.wrapInt (idx - 1)
    then (Returns (false, "",
                   Some (Errorf
                           "Error loading %s: Space has %d domains but domain with number %d was requested"
                           [ArgS name;
                            ArgD (Z.of_nat (length (Domains (Space cached))));
                            ArgD idx])), s)
    else match Slice.index (Domains (Space cached)) (Strconv.wrapInt (idx - 1)) with
         | Returns domain => (Returns (true, URL domain, None), s)
         | Panics => (Panics, s)
         end.
Proof.
  destruct (parametric_name E s p suffix Hreg Hp) as (H1 & H2 & H3).
  destruct Hchain as (c & spaceID & providerName & cfg & prov & spaces
                      & Hc & Hid & Hcfg & Hprov & Hspaces & Hspace).
  unfold_lookup. fold name in H1, H2, H3. rewrite H1, H2, run_bind. cbn [eval].
  rewrite H3, Hatoi, Hc, Hid, Hcfg, Hprov, Hspaces, Hspace.
  destruct (_ <=? _); [reflexivity|].
  rewrite run_bind. cbn [eval]. now destruct (Slice.index _ _).
Qed.

(** An index beyond the number of domains is reported with both
    numbers. *)
Lemma parametric_index_beyond :
  Z.of_nat (length (Domains (Space cached))) < idx ->
  getPredefinedVar E name overrideKubeContext s
  = (Returns (false, "",
              Some (Errorf
                      "Error loading %s: Space has %d domains but domain with number %d was requested"
                      [ArgS name;
                       ArgD (Z.of_nat (length (Domains (Space cached))));
                       ArgD idx])), s).
Proof.
  intros Hlen. rewrite parametric_indexing.
  pose proof (Atoi_range _ _ Hatoi) as Hrange.
  rewrite wrapInt_small by (unfold Strconv.minInt64, Strconv.maxInt64 in *; lia).
  destruct (Z.leb_spec (Z.of_nat (length (Domains (Space cached)))) (idx - 1));
    [reflexivity | lia].
Qed.

(** An index from 1 to the number of domains returns the URL of the
    domain at that place, counted from 1. *)
Lemma parametric_index_in_range :
  1 <= idx <= Z.of_nat (length (Domains (Space cached))) ->
  exists domain,
    Domains (Space cached) !! Z.to_nat (idx - 1) = Some domain
    /\ getPredefinedVar E name overrideKubeContext s
       = (Returns (true, URL domain, None), s).
Proof.
  intros Hlen. rewrite parametric_indexing.
  pose proof (Atoi_range _ _ Hatoi) as Hrange.
  rewrite wrapInt_small by (unfold Strconv.minInt64, Strconv.maxInt64 in *; lia).
  destruct (Z.leb_spec (Z.of_nat (length (Domains (Space cached)))) (idx - 1));
    [lia|].
  unfold Slice.index. destruct (Z.ltb_spec (idx - 1) 0); [lia|].
  destruct (lookup_lt_is_Some_2 (Domains (Space cached)) (Z.to_nat (idx - 1)))
    as [domain Hd]; [lia|].
  exists domain. now rewrite Hd.
Qed.

(** An index of 0 or less passes the bounds check, which looks at the
    upper end only, and the indexing panics. *)
Lemma parametric_index_below_one :
  Strconv.minInt64 < idx <= 0 ->
  getPredefinedVar E name overrideKubeContext s = (Panics, s).
Proof.
  intros Hlow. rewrite parametric_indexing.
  rewrite wrapInt_small by (unfold Strconv.minInt64, Strconv.maxInt64 in *; lia).
  destruct (Z.leb_spec (Z.of_nat (length (Domains (Space cached)))) (idx - 1));
    [lia|].
  unfold Slice.index. destruct (Z.ltb_spec (idx - 1) 0); [reflexivity | lia].
Qed.

End ParametricLookup.

(** C1, at the index 0: in a world where the chain of the lookup leads to
    a space, the lookup of the reserved prefix followed by [0] returns no
    malformed-index error. [Atoi] accepts the suffix, the bounds check
    [len(Domains) <= idx-1] lets the index through, and [Domains[idx-1]]
    panics. *)
Theorem domain_index_zero_panics (E : Externals) (p overrideKubeContext : string)
    (s : state) (cached : spaceCache) :
  registryState E (vars s) ->
  Strings.ToUpper p = spaceDomainPrefix ->
  resolvesToSpace E overrideKubeContext cached ->
  getPredefinedVar E (p +:+ "0") overrideKubeContext s = (Panics, s).
Proof.
  intros Hreg Hp Hchain.
  apply (parametric_index_below_one E p "0" overrideKubeContext s Hreg Hp 0 cached);
    [reflexivity | exact Hchain |].
  unfold Strconv.minInt64. lia.
Qed.

Lemma sample_resolvesToSpace :
  resolvesToSpace Sample.world "devspace-space" Sample.cached.
Proof.
  exists "minikube", 7, "app.devspace.cloud", tt, Sample.cloud, {[ 7 := Sample.cached ]}.
  repeat split; reflexivity.
Defined.

Lemma domain_index_zero_panics_witness :
  getPredefinedVar Sample.world "DEVSPACE_SPACE_DOMAIN0" "devspace-space" Sample.initial
  = (Panics, Sample.initial).
Proof.
  apply (domain_index_zero_panics Sample.world "DEVSPACE_SPACE_DOMAIN"
           "devspace-space" Sample.initial Sample.cached).
  - apply registryState_initial.
  - reflexivity.
  - exact sample_resolvesToSpace.
Defined.

(** The rest of the index rule on the sample space, which has two domains:
    the indices 1 and 2 are answered, 3 is refused with the numbers 3 and
    2, and a suffix that is no number is refused as malformed. *)
Example sample_domain_indices :
  fst (getPredefinedVar Sample.world "DEVSPACE_SPACE_DOMAIN1" "devspace-space"
         Sample.initial) = Returns (true, "one.devspace.host", None)
  /\ fst (getPredefinedVar Sample.world "DEVSPACE_SPACE_DOMAIN2" "devspace-space"
            Sample.initial) = Returns (true, "two.devspace.host", None)
  /\ fst (getPredefinedVar Sample.world "DEVSPACE_SPACE_DOMAIN3" "devspace-space"
            Sample.initial)
     = Returns (false, "",
                Some (Errorf
                        "Error loading %s: Space has %d domains but domain with number %d was requested"
                        [ArgS "DEVSPACE_SPACE_DOMAIN3"; ArgD 2; ArgD 3]))
  /\ fst (getPredefinedVar Sample.world "DEVSPACE_SPACE_DOMAINx" "devspace-space"
            Sample.initial)
     = Returns (false, "",
                Some (Errorf "Error parsing variable %s: %v"
                        [ArgS "DEVSPACE_SPACE_DOMAINx";
                         ArgV (Strconv.syntaxError "Atoi" "x")])).
Proof. repeat split; reflexivity. Qed.

(** ** Letter case *)

Lemma isDigit_upperByte (c : ascii) :
  Strconv.isDigit (Strings.upperByte c) = Strconv.isDigit c.
Proof. destruct c as [[] [] [] [] [] [] [] []]; reflexivity. Qed.

Lemma digit_upperByte (c : ascii) :
  Strconv.isDigit c = true -> Strings.upperByte c = c.
Proof. destruct c as [[] [] [] [] [] [] [] []]; intros H; try reflexivity; discriminate H. Qed.

Lemma minus_upperByte (c : ascii) :
  Ascii.eqb (Strings.upperByte c) Strconv.minus = Ascii.eqb c Strconv.minus.
Proof. destruct c as [[] [] [] [] [] [] [] []]; reflexivity. Qed.

Lemma plus_upperByte (c : ascii) :
  Ascii.eqb (Strings.upperByte c) Strconv.plus = Ascii.eqb c Strconv.plus.
Proof. destruct c as [[] [] [] [] [] [] [] []]; reflexivity. Qed.

Lemma scanDigits_ToUpper (s : string) :
  forall n, Strconv.scanDigits (Strings.ToUpper s) n = Strconv.scanDigits s n.
Proof.
  induction s as [|c s IH]; intros n; [reflexivity|].
  cbn [Strings.ToUpper Strconv.scanDigits]. rewrite isDigit_upperByte.
  destruct (Strconv.isDigit c) eqn:Hd; [|reflexivity].
  rewrite (digit_upperByte c Hd), IH. reflexivity.
Qed.

Lemma ParseUint_ToUpper (s : string) :
  Strconv.ParseUint (Strings.ToUpper s) = Strconv.ParseUint s.
Proof.
  destruct s as [|c s]; [reflexivity|].
  apply (scanDigits_ToUpper (String c s)).
Qed.

(** [Atoi] reads the same number from a string and from its upper-case
    form, or refuses both for the same reason. *)
Lemma Atoi_ToUpper (s : string) :
  atoiQuotedUpper (Strconv.Atoi (Strings.ToUpper s))
  = atoiQuotedUpper (Strconv.Atoi s).
Proof.
  destruct s as [|c rest]; [reflexivity|].
  cbn [Strings.ToUpper]. unfold Strconv.Atoi. cbv zeta.
  rewrite minus_upperByte, plus_upperByte.
  replace (if Ascii.eqb c Strconv.plus || Ascii.eqb c Strconv.minus
           then Strings.ToUpper rest
           else String (Strings.upperByte c) (Strings.ToUpper rest))
    with (Strings.ToUpper (if Ascii.eqb c Strconv.plus || Ascii.eqb c Strconv.minus
                           then rest else String c rest))
    by (now destruct (_ || _)).
  rewrite ParseUint_ToUpper.
  destruct (Strconv.ParseUint _) as [un| |]; destruct (Ascii.eqb c Strconv.minus);
    cbn [negb andb]; repeat case_match;
    unfold atoiQuotedUpper, Strconv.rangeError, Strconv.syntaxError;
    cbn [fst snd fmap option_fmap option_map quotedUpper Strings.ToUpper];
    rewrite ?upperByte_idem, ?ToUpper_idem; reflexivity.
Qed.

(** The lookup of a name and the lookup of its upper-case form end the
    same way but for the letter case of what the error quotes. *)
Lemma lookup_ToUpper (E : Externals) (name overrideKubeContext : string) (s : state) :
  resultQuotedUpper (getPredefinedVar E (Strings.ToUpper name) overrideKubeContext s)
  = resultQuotedUpper (getPredefinedVar E name overrideKubeContext s).
Proof.
  unfold getPredefinedVar. rewrite !run_bind. cbn [registry]. rewrite ToUpper_idem.
  destruct (vars s !! Strings.ToUpper name) as [d|]; [reflexivity|].
  destruct (Strings.HasPrefix _ _) eqn:Hp; [|reflexivity].
  rewrite !run_bind. cbn [eval].
  rewrite (slice_after_prefix name Hp).
  rewrite (slice_after_prefix (Strings.ToUpper name)) by (now rewrite ToUpper_idem).
  rewrite <- ToUpper_dropBytes.
  pose proof (Atoi_ToUpper (Strings.dropBytes (String.length spaceDomainPrefix) name))
    as Hatoi.
  destruct (Strconv.Atoi (Strings.ToUpper _)) as [idx' [err'|]];
    destruct (Strconv.Atoi _) as [idx [err|]];
    unfold atoiQuotedUpper in Hatoi; cbn in Hatoi; try discriminate Hatoi.
  - injection Hatoi as _ Herr. rewrite !run_ret.
    cbn [resultQuotedUpper fmap option_fmap option_map quotedUpper map].
    now rewrite ToUpper_idem, Herr.
  - injection Hatoi as ->.
    repeat (case_match; rewrite ?run_bind, ?run_ret;
            cbn [eval resultQuotedUpper fmap option_fmap option_map quotedUpper map
                 noSpaceConfigured];
            rewrite ?ToUpper_idem; try reflexivity).
Qed.

(** C6, as the claim has it, fails: two names that differ in letter case
    only are refused with two different errors, since the error quotes the
    name, and the suffix [Atoi] refused, as they were typed. *)
Lemma case_variants_get_different_errors :
  Strings.ToUpper "devspace_space_domainx" = Strings.ToUpper "DEVSPACE_SPACE_DOMAINX"
  /\ fst (getPredefinedVar Sample.world "devspace_space_domainx" "" Sample.initial)
     = Returns (false, "",
                Some (Errorf "Error parsing variable %s: %v"
                        [ArgS "devspace_space_domainx";
                         ArgV (Strconv.syntaxError "Atoi" "x")]))
  /\ fst (getPredefinedVar Sample.world "DEVSPACE_SPACE_DOMAINX" "" Sample.initial)
     = Returns (false, "",
                Some (Errorf "Error parsing variable %s: %v"
                        [ArgS "DEVSPACE_SPACE_DOMAINX";
                         ArgV (Strconv.syntaxError "Atoi" "X")]))
  /\ fst (getPredefinedVar Sample.world "devspace_space_domainx" "" Sample.initial)
     <> fst (getPredefinedVar Sample.world "DEVSPACE_SPACE_DOMAINX" "" Sample.initial).
Proof.
  repeat split; try reflexivity.
  intros H. vm_compute in H. discriminate H.
Qed.

(** C6, amended: for two ASCII names that are equal in upper case, the
    lookups return the same [found] and the same value, panic together, and
    return an error together, the same error but for the letter case of the
    name and of the suffix it quotes; for a static name the two results are
    identical, as are two results without error. The names are ASCII
    because that is where [Strings.ToUpper] is the function of Go. *)
Theorem lookup_is_case_insensitive_up_to_quoted_name (E : Externals)
    (name name' overrideKubeContext : string) (s : state) :
  Strings.isASCII name = true ->
  Strings.isASCII name' = true ->
  Strings.ToUpper name = Strings.ToUpper name' ->
  resultQuotedUpper (getPredefinedVar E name overrideKubeContext s)
  = resultQuotedUpper (getPredefinedVar E name' overrideKubeContext s)
  /\ (is_Some (vars s !! Strings.ToUpper name) ->
      getPredefinedVar E name overrideKubeContext s
      = getPredefinedVar E name' overrideKubeContext s)
  /\ (forall found value,
        getPredefinedVar E name overrideKubeContext s
        = (Returns (found, value, None), s) ->
        getPredefinedVar E name' overrideKubeContext s
        = (Returns (found, value, None), s)).
Proof.
  intros _ _ Hupper.
  assert (Hsame : resultQuotedUpper (getPredefinedVar E name overrideKubeContext s)
                  = resultQuotedUpper (getPredefinedVar E name' overrideKubeContext s)).
  { rewrite <- (lookup_ToUpper E name), <- (lookup_ToUpper E name').
    now rewrite Hupper. }
  split; [exact Hsame|]. split.
  - intros [d Hd]. rewrite (static_lookup E name _ s d Hd).
    rewrite Hupper in Hd. now rewrite (static_lookup E name' _ s d Hd).
  - intros found value Hrun. rewrite Hrun in Hsame.
    pose proof (getPredefinedVar_state E name' overrideKubeContext s) as Hs.
    destruct (getPredefinedVar E name' overrideKubeContext s)
      as [[[[found' value'] [err'|]]|] s'];
      cbn in Hsame, Hs; subst s'; try discriminate Hsame.
    now injection Hsame as -> ->.
Qed.

Lemma lookup_is_case_insensitive_up_to_quoted_name_witness :
  resultQuotedUpper
    (getPredefinedVar Sample.world "devspace_space_domainx" "" Sample.initial)
  = resultQuotedUpper
      (getPredefinedVar Sample.world "DEVSPACE_SPACE_DOMAINX" "" Sample.initial).
Proof.
  apply (lookup_is_case_insensitive_up_to_quoted_name Sample.world
           "devspace_space_domainx" "DEVSPACE_SPACE_DOMAINX" "" Sample.initial);
    reflexivity.
Defined.

(** * Further properties of the pass *)

Lemma fill_all_ok (order : list string) (overrideKubeContext : string) (s : state) :
  (forall k, k ∈ order -> is_Some (vars s !! k)) ->
  (forall k d, k ∈ order -> vars s !! k = Some d ->
     exists val, Fill d overrideKubeContext = Returns (val, None)) ->
  exists s',
    fillPredefinedVars order overrideKubeContext s = (Returns None, s')
    /\ invoked s' = (invoked s ++ order).
Proof.
  intros Hreg Hok.
  destruct (fill_prefix order overrideKubeContext s Hreg Hok)
    as (s1 & Hrun & _ & _ & Hlog).
  exists s1. split; [|exact Hlog].
  specialize (Hrun []). now rewrite app_nil_r in Hrun.
Qed.

(** Two registries that hold the same definitions as [m] and, for every
    name, the value the resolver of [m] returns, are one registry. *)
Lemma filled_registry_unique (m m1 m2 : gmap string predefinedVarDefinition)
    (overrideKubeContext : string) :
  sameDefinitions m1 m -> sameDefinitions m2 m ->
  (forall k d, m !! k = Some d ->
     exists val, Fill d overrideKubeContext = Returns (val, None)
                 /\ m1 !! k = Some (setValue d val)) ->
  (forall k d, m !! k = Some d ->
     exists val, Fill d overrideKubeContext = Returns (val, None)
                 /\ m2 !! k = Some (setValue d val)) ->
  m1 = m2.
Proof.
  intros H1 H2 Hv1 Hv2. apply map_eq. intros k.
  destruct (m !! k) as [d|] eqn:Hk.
  - destruct (Hv1 k d Hk) as (v1 & HF1 & ->).
    destruct (Hv2 k d Hk) as (v2 & HF2 & ->). congruence.
  - specialize (H1 k). specialize (H2 k). rewrite Hk in H1, H2.
    inversion H1; inversion H2; congruence.
Qed.

(** X1: a pass over the registry that returns no error has called the
    resolver of every registered name once, in the order of the loop. *)
Theorem successful_pass_calls_every_resolver_once (s s' : state)
    (order : list string) (overrideKubeContext : string) :
  rangeOrder (vars s) order ->
  fillPredefinedVars order overrideKubeContext s = (Returns None, s') ->
  invoked s' = (invoked s ++ order) /\ NoDup order
  /\ forall k, is_Some (vars s !! k) -> k ∈ order.
Proof.
  intros Horder Hrun. destruct (rangeOrder_spec _ _ Horder) as [Hnodup Hmem].
  destruct (fill_success _ _ _ _ Hrun) as [Hin _].
  destruct (fill_all_ok order overrideKubeContext s) as (s1 & Hrun1 & Hlog).
  - intros k Hk. now apply Hmem.
  - intros k d Hk Hd. destruct (Hin k d Hk Hd) as (val & HF & _). eauto.
  - rewrite Hrun in Hrun1. injection Hrun1 as ->.
    split; [exact Hlog|]. split; [exact Hnodup|]. intros k. apply Hmem.
Qed.

Lemma successful_pass_calls_every_resolver_once_witness :
  invoked (snd (fillPredefinedVars Sample.order "" Sample.initial))
  = (invoked Sample.initial ++ Sample.order)
  /\ NoDup Sample.order
  /\ forall k, is_Some (vars Sample.initial !! k) -> k ∈ Sample.order.
Proof.
  apply (successful_pass_calls_every_resolver_once Sample.initial
           (snd (fillPredefinedVars Sample.order "" Sample.initial))
           Sample.order "").
  - unfold rangeOrder. apply (bool_decide_unpack _). vm_compute. exact I.
  - reflexivity.
Defined.

(** X2: the order in which the loop meets the names is immaterial for a
    pass that returns no error: in every other order the pass returns no
    error either and leaves the same registry. *)
Theorem successful_pass_is_order_independent (s s1 : state)
    (order order' : list string) (overrideKubeContext : string) :
  rangeOrder (vars s) order ->
  rangeOrder (vars s) order' ->
  fillPredefinedVars order overrideKubeContext s = (Returns None, s1) ->
  exists s2,
    fillPredefinedVars order' overrideKubeContext s = (Returns None, s2)
    /\ vars s2 = vars s1.
Proof.
  intros Horder Horder' Hrun.
  destruct (rangeOrder_spec _ _ Horder) as [_ Hmem].
  destruct (rangeOrder_spec _ _ Horder') as [_ Hmem'].
  destruct (fill_success _ _ _ _ Hrun) as [Hin _].
  destruct (fill_all_ok order' overrideKubeContext s) as (s2 & Hrun2 & _).
  - intros k Hk. now apply Hmem'.
  - intros k d Hk Hd. destruct (Hin k d) as (val & HF & _); eauto.
    apply Hmem. eauto.
  - exists s2. split; [exact Hrun2|].
    destruct (fill_success _ _ _ _ Hrun2) as [Hin2 _].
    apply (filled_registry_unique (vars s) _ _ overrideKubeContext).
    + pose proof (fill_sameDefinitions order' overrideKubeContext s) as H.
      now rewrite Hrun2 in H.
    + pose proof (fill_sameDefinitions order overrideKubeContext s) as H.
      now rewrite Hrun in H.
    + intros k d Hd. apply Hin2; [apply Hmem'; eauto | exact Hd].
    + intros k d Hd. apply Hin; [apply Hmem; eauto | exact Hd].
Qed.

Lemma successful_pass_is_order_independent_witness :
  exists s2,
    fillPredefinedVars Sample.order' "devspace-space" Sample.initial
    = (Returns None, s2)
    /\ vars s2 = vars Sample.filled.
Proof.
  apply (successful_pass_is_order_independent Sample.initial Sample.filled
           Sample.order Sample.order' "devspace-space").
  - unfold rangeOrder. apply (bool_decide_unpack _). vm_compute. exact I.
  - unfold rangeOrder. apply (bool_decide_unpack _). vm_compute. exact I.
  - reflexivity.
Defined.

(** X3: a second pass in the same world, after a pass that returned no
    error, returns no error and leaves the registry as the first pass left
    it. *)
Theorem pass_is_idempotent (s s1 : state) (order order' : list string)
    (overrideKubeContext : string) :
  rangeOrder (vars s) order ->
  rangeOrder (vars s1) order' ->
  fillPredefinedVars order overrideKubeContext s = (Returns None, s1) ->
  exists s2,
    fillPredefinedVars order' overrideKubeContext s1 = (Returns None, s2)
    /\ vars s2 = vars s1.
Proof.
  intros Horder Horder' Hrun.
  destruct (rangeOrder_spec _ _ Horder) as [_ Hmem].
  destruct (rangeOrder_spec _ _ Horder') as [_ Hmem'].
  destruct (fill_success _ _ _ _ Hrun) as [Hin _].
  pose proof (fill_sameDefinitions order overrideKubeContext s) as Hsame.
  rewrite Hrun in Hsame. cbn [snd] in Hsame.
  assert (Hfilled : forall k d1, vars s1 !! k = Some d1 ->
            exists d val, vars s !! k = Some d
                          /\ Fill d overrideKubeContext = Returns (val, None)
                          /\ d1 = setValue d val).
  { intros k d1 Hd1. specialize (Hsame k). rewrite Hd1 in Hsame.
    inversion Hsame as [? d _ Heq Hd|]; subst. symmetry in Hd.
    destruct (Hin k d) as (val & HF & Hs1); [apply Hmem; eauto | exact Hd |].
    exists d, val. repeat split; congruence. }
  destruct (fill_all_ok order' overrideKubeContext s1) as (s2 & Hrun2 & _).
  - intros k Hk. now apply Hmem'.
  - intros k d1 _ Hd1. destruct (Hfilled k d1 Hd1) as (d & val & _ & HF & ->).
    exists val. exact HF.
  - exists s2. split; [exact Hrun2|].
    destruct (fill_success _ _ _ _ Hrun2) as [Hin2 _].
    apply (filled_registry_unique (vars s1) _ _ overrideKubeContext).
    + pose proof (fill_sameDefinitions order' overrideKubeContext s1) as H.
      now rewrite Hrun2 in H.
    + apply sameDefinitions_refl.
    + intros k d1 Hd1. apply Hin2; [apply Hmem'; eauto | exact Hd1].
    + intros k d1 Hd1. destruct (Hfilled k d1 Hd1) as (d & val & _ & HF & ->).
      exists val. split; [exact HF|]. now rewrite Hd1.
Qed.

Lemma pass_is_idempotent_witness :
  exists s2,
    fillPredefinedVars Sample.order' "devspace-space" Sample.filled
    = (Returns None, s2)
    /\ vars s2 = vars Sample.filled.
Proof.
  apply (pass_is_idempotent Sample.initial Sample.filled
           Sample.order Sample.order' "devspace-space").
  - unfold rangeOrder. apply (bool_decide_unpack _). vm_compute. exact I.
  - unfold rangeOrder. apply (bool_decide_unpack _). vm_compute. exact I.
  - reflexivity.
Defined.

(** The loop up to the name [v]: the names of [pre] are called and stored,
    [v] and the names after it are as they were. *)
Lemma fill_upto (s : state) (pre post : list string) (v overrideKubeContext : string) :
  rangeOrder (vars s) (pre ++ v :: post) ->
  Forall (fun k => exists valk,
            resolverReturns s overrideKubeContext k (Returns (valk, None))) pre ->
  exists s1,
    (forall rest, fillPredefinedVars (pre ++ rest) overrideKubeContext s
                  = fillPredefinedVars rest overrideKubeContext s1)
    /\ invoked s1 = (invoked s ++ pre)
    /\ (forall k d, k ∈ pre -> vars s !! k = Some d ->
          exists val, Fill d overrideKubeContext = Returns (val, None)
                      /\ vars s1 !! k = Some (setValue d val))
    /\ (forall k, k ∈ v :: post -> vars s1 !! k = vars s !! k).
Proof.
  intros Horder Hpre.
  destruct (rangeOrder_spec _ _ Horder) as [Hnodup _].
  apply NoDup_app in Hnodup as (_ & Hdisj & _).
  rewrite Forall_forall in Hpre.
  destruct (fill_prefix pre overrideKubeContext s) as (s1 & Hrun & _ & Hframe & Hlog).
  { intros k Hk. destruct (Hpre k Hk) as [valk Hr].
    apply resolverReturns_inv in Hr as (d & Hd & _). eauto. }
  { intros k d Hk Hd. destruct (Hpre k Hk) as [valk Hr].
    apply resolverReturns_inv in Hr as (d' & Hd' & HF).
    exists valk. congruence. }
  exists s1. split; [exact Hrun|]. split; [exact Hlog|]. split.
  - pose proof (Hrun []) as Hrun0. rewrite app_nil_r in Hrun0.
    cbn [fillPredefinedVars] in Hrun0. rewrite run_ret in Hrun0.
    destruct (fill_success _ _ _ _ Hrun0) as [Hin _]. exact Hin.
  - intros k Hk. apply Hframe. intros Hin. exact (Hdisj k Hin Hk).
Qed.

(** X4: a pass that is aborted is not undone. The names met before the
    failing one hold the values their resolvers returned in this pass; the
    failing name and the names after it hold what they held before. *)
Theorem aborted_pass_keeps_earlier_values (s s' : state) (pre post : list string)
    (v overrideKubeContext : string) (val : option string) (err : error) :
  rangeOrder (vars s) (pre ++ v :: post) ->
  Forall (fun k => exists valk,
            resolverReturns s overrideKubeContext k (Returns (valk, None))) pre ->
  resolverReturns s overrideKubeContext v (Returns (val, Some err)) ->
  snd (fillPredefinedVars (pre ++ v :: post) overrideKubeContext s) = s' ->
  (forall k d, k ∈ pre -> vars s !! k = Some d ->
     exists valk, Fill d overrideKubeContext = Returns (valk, None)
                  /\ vars s' !! k = Some (setValue d valk))
  /\ (forall k, k ∈ v :: post -> vars s' !! k = vars s !! k).
Proof.
  intros Horder Hpre Hv <-.
  destruct (fill_upto s pre post v overrideKubeContext Horder Hpre)
    as (s1 & Hrun & _ & Hstored & Hframe).
  apply resolverReturns_inv in Hv as (d & Hd & HF).
  assert (Hd1 : vars s1 !! v = Some d) by (rewrite Hframe; [exact Hd | left]).
  rewrite Hrun, (fill_step_failed _ _ _ _ _ Hd1 _ _ HF). cbn [snd called vars].
  split; assumption.
Qed.

Lemma aborted_pass_keeps_earlier_values_witness :
  (forall k d, k ∈ [ "DEVSPACE_TIMESTAMP"; "DEVSPACE_SPACE"; "DEVSPACE_RANDOM" ] ->
     vars Sample.initialNoContext !! k = Some d ->
     exists valk, Fill d "" = Returns (valk, None)
                  /\ vars (snd (fillPredefinedVars Sample.order ""
                                  Sample.initialNoContext)) !! k
                     = Some (setValue d valk))
  /\ (forall k, k ∈ [ "DEVSPACE_USERNAME"; "DEVSPACE_GIT_COMMIT";
                      "DEVSPACE_SPACE_NAMESPACE" ] ->
        vars (snd (fillPredefinedVars Sample.order "" Sample.initialNoContext)) !! k
        = vars Sample.initialNoContext !! k).
Proof.
  apply (aborted_pass_keeps_earlier_values Sample.initialNoContext _
           [ "DEVSPACE_TIMESTAMP"; "DEVSPACE_SPACE"; "DEVSPACE_RANDOM" ]
           [ "DEVSPACE_GIT_COMMIT"; "DEVSPACE_SPACE_NAMESPACE" ]
           "DEVSPACE_USERNAME" "" None (New "kube config not found")).
  - unfold rangeOrder. apply (bool_decide_unpack _). vm_compute. exact I.
  - repeat constructor; eexists; reflexivity.
  - reflexivity.
  - reflexivity.
Defined.



Lemma registryState_resolve (E : Externals) (s : state) (overrideKubeContext k : string)
    (r : outcome (option string * option error)) :
  registryState E (vars s) ->
  resolve E k overrideKubeContext = Some r ->
  exists d, vars s !! k = Some d /\ Fill d overrideKubeContext = r.
Proof.
  intros Hreg Hr. unfold resolve in Hr. specialize (Hreg k).
  destruct (PredefinedVars E !! k) as [d0|]; [|discriminate].
  cbn in Hr. injection Hr as <-.
  inversion Hreg as [d ? [_ HF] |]; subst. exists d. split; [reflexivity|].
  now rewrite HF.
Qed.

(** X6: without a readable current context no pass succeeds. The resolver
    of [DEVSPACE_USERNAME] returns the error of the read, so a pass over
    the registry, in any order and with any override, never returns
    [nil]. *)
Theorem unreadable_context_fails_every_pass (E : Externals) (s : state)
    (order : list string) (overrideKubeContext : string) (err : error) :
  registryState E (vars s) ->
  rangeOrder (vars s) order ->
  kubeconfig_GetCurrentContext E = Failed err ->
  resolve E "DEVSPACE_USERNAME" overrideKubeContext = Some (Returns (None, Some err))
  /\ fst (fillPredefinedVars order overrideKubeContext s) <> Returns None.
Proof.
  intros Hreg Horder Hc.
  assert (Hr : resolve E "DEVSPACE_USERNAME" overrideKubeContext
               = Some (Returns (None, Some err))).
  { rewrite resolve_unfold. repeat (case_decide; [discriminate|]).
    (case_decide; [|congruence]). f_equal. unfold fillUsername. now rewrite Hc. }
  split; [exact Hr|]. intros Hrun.
  destruct (fillPredefinedVars order overrideKubeContext s) as [r s'] eqn:Hfill.
  cbn [fst] in Hrun. subst r.
  destruct (registryState_resolve E s _ _ _ Hreg Hr) as (d & Hd & HF).
  destruct (rangeOrder_spec _ _ Horder) as [_ Hmem].
  destruct (fill_success _ _ _ _ Hfill) as [Hin _].
  destruct (Hin "DEVSPACE_USERNAME" d) as (val & HF' & _);
    [apply Hmem; eauto | exact Hd |].
  congruence.
Qed.

Lemma unreadable_context_fails_every_pass_witness :
  resolve Sample.noContext "DEVSPACE_USERNAME" "devspace-space"
  = Some (Returns (None, Some (New "kube config not found")))
  /\ fst (fillPredefinedVars Sample.order' "devspace-space" Sample.initialNoContext)
     <> Returns None.
Proof.
  apply (unreadable_context_fails_every_pass Sample.noContext
           Sample.initialNoContext Sample.order' "devspace-space"
           (New "kube config not found")).
  - apply registryState_initial.
  - unfold rangeOrder. apply (bool_decide_unpack _). vm_compute. exact I.
  - reflexivity.
Defined.

(** X7: after a pass over the registry that returned no error, the lookup
    of a static name, in any letter case, any world and with any override,
    returns what the resolver of the name returned in that pass: the value
    with [found = true], or, where the resolver returned [nil], the error
    made of the [ErrorMessage] of the name. *)
Theorem lookup_after_pass_returns_resolved_value (E : Externals) (s s' : state)
    (order : list string) (passContext name overrideKubeContext : string)
    (d : predefinedVarDefinition) :
  rangeOrder (vars s) order ->
  fillPredefinedVars order passContext s = (Returns None, s') ->
  vars s !! Strings.ToUpper name = Some d ->
  exists val,
    Fill d passContext = Returns (val, None)
    /\ getPredefinedVar E name overrideKubeContext s'
       = match val with
         | Some value => (Returns (true, value, None), s')
         | None => (Returns (false, "", Some (New (ErrorMessage d))), s')
         end.
Proof.
  intros Horder Hrun Hd.
  destruct (rangeOrder_spec _ _ Horder) as [_ Hmem].
  destruct (fill_success _ _ _ _ Hrun) as [Hin _].
  destruct (Hin (Strings.ToUpper name) d) as (val & HF & Hs');
    [apply Hmem; eauto | exact Hd |].
  exists val. split; [exact HF|].
  rewrite (static_lookup E name overrideKubeContext s' _ Hs'). reflexivity.
Qed.

Lemma lookup_after_pass_returns_resolved_value_witness :
  exists val,
    Fill Sample.gitCommit "devspace-space" = Returns (val, None)
    /\ getPredefinedVar Sample.noContext "devspace_git_commit" "" Sample.filled
       = match val with
         | Some value => (Returns (true, value, None), Sample.filled)
         | None =>
             (Returns (false, "", Some (New (ErrorMessage Sample.gitCommit))),
              Sample.filled)
         end.
Proof.
  apply (lookup_after_pass_returns_resolved_value Sample.noContext Sample.initial
           Sample.filled Sample.order "devspace-space" "devspace_git_commit" ""
           Sample.gitCommit).
  - unfold rangeOrder. apply (bool_decide_unpack _). vm_compute. exact I.
  - reflexivity.
  - reflexivity.
Defined.

(** * Further properties of the lookup *)

(** X8: the lookup of a static name reads the registry only: it returns
    the same in every world and with every override. *)
Theorem static_lookup_ignores_world (E E' : Externals)
    (name overrideKubeContext overrideKubeContext' : string) (s : state) :
  is_Some (vars s !! Strings.ToUpper name) ->
  getPredefinedVar E name overrideKubeContext s
  = getPredefinedVar E' name overrideKubeContext' s.
Proof.
  intros [d Hd]. now rewrite !(static_lookup _ name _ s d Hd).
Qed.

Lemma static_lookup_ignores_world_witness :
  getPredefinedVar Sample.world "Devspace_Space" "" Sample.filled
  = getPredefinedVar Sample.noContext "Devspace_Space" "devspace-space" Sample.filled.
Proof.
  apply (static_lookup_ignores_world Sample.world Sample.noContext
           "Devspace_Space" "" "devspace-space" Sample.filled).
  eexists. reflexivity.
Defined.

Lemma parametric_lookup_reads_no_value (E : Externals)
    (name overrideKubeContext : string) (s s' : state) :
  vars s !! Strings.ToUpper name = None ->
  vars s' !! Strings.ToUpper name = None ->
  fst (getPredefinedVar E name overrideKubeContext s)
  = fst (getPredefinedVar E name overrideKubeContext s').
Proof.
  intros Hs Hs'. unfold getPredefinedVar. rewrite !run_bind. cbn [registry].
  rewrite Hs, Hs'.
  repeat (case_match; rewrite ?run_bind, ?run_ret; cbn [eval fst snd];
          try reflexivity).
Qed.

(** X9: the lookup of a parametric name does not depend on the values of
    the registry: it returns the same before and after a pass, however the
    pass ends. *)
Theorem parametric_lookup_ignores_passes (E : Externals)
    (name overrideKubeContext : string) (s : state)
    (order : list string) (passContext : string) :
  registryState E (vars s) ->
  Strings.HasPrefix (Strings.ToUpper name) spaceDomainPrefix = true ->
  fst (getPredefinedVar E name overrideKubeContext
         (snd (fillPredefinedVars order passContext s)))
  = fst (getPredefinedVar E name overrideKubeContext s).
Proof.
  intros Hreg Hp. apply parametric_lookup_reads_no_value.
  - apply (registryState_parametric E); [|exact Hp]. now apply fill_registryState.
  - now apply (registryState_parametric E).
Qed.

Lemma parametric_lookup_ignores_passes_witness :
  fst (getPredefinedVar Sample.world "devspace_space_domain2" "devspace-space"
         (snd (fillPredefinedVars Sample.order "" Sample.initial)))
  = fst (getPredefinedVar Sample.world "devspace_space_domain2" "devspace-space"
           Sample.initial).
Proof.
  apply (parametric_lookup_ignores_passes Sample.world "devspace_space_domain2"
           "devspace-space" Sample.initial Sample.order "").
  - apply registryState_initial.
  - reflexivity.
Defined.

Lemma PredefinedVars_Value (E : Externals) (k : string) (d : predefinedVarDefinition) :
  PredefinedVars E !! k = Some d -> Value d = None.
Proof.
  intros H. apply elem_of_list_to_map_2 in H. set_unfold.
  repeat (destruct H as [H|H]; [injection H as _ ->; reflexivity|]).
  destruct H.
Qed.

(** X10: as long as no pass has run, the lookup of every static name, in
    any letter case, fails with the [ErrorMessage] of the name. *)
Theorem lookup_before_any_pass_fails (E E' : Externals)
    (name overrideKubeContext : string) (log : list string) :
  Strings.ToUpper name ∈ staticNames ->
  exists d,
    PredefinedVars E !! Strings.ToUpper name = Some d
    /\ getPredefinedVar E' name overrideKubeContext
         {| vars := PredefinedVars E; invoked := log |}
       = (Returns (false, "", Some (New (ErrorMessage d))),
          {| vars := PredefinedVars E; invoked := log |}).
Proof.
  intros Hin. apply (PredefinedVars_names E) in Hin as [d Hd].
  exists d. split; [exact Hd|].
  rewrite (static_lookup E' name overrideKubeContext
             {| vars := PredefinedVars E; invoked := log |} d Hd).
  now rewrite (PredefinedVars_Value E _ d Hd).
Qed.

Lemma lookup_before_any_pass_fails_witness :
  exists d,
    PredefinedVars Sample.world !! Strings.ToUpper "devspace_timestamp" = Some d
    /\ getPredefinedVar Sample.world "devspace_timestamp" ""
         {| vars := PredefinedVars Sample.world; invoked := [] |}
       = (Returns (false, "", Some (New (ErrorMessage d))),
          {| vars := PredefinedVars Sample.world; invoked := [] |}).
Proof.
  apply (lookup_before_any_pass_fails Sample.world Sample.world
           "devspace_timestamp" "" []).
  apply (bool_decide_unpack _). vm_compute. exact I.
Defined.

(** X11: a parametric name whose suffix [Atoi] refuses is answered with
    the parse error, which quotes the name and carries the error of
    [Atoi]; no collaborator is asked, so the answer is the same in every
    world. *)
Theorem malformed_index_is_refused_in_every_world (E E' : Externals)
    (p suffix overrideKubeContext : string) (s : state) (n : Z) (err : error) :
  registryState E (vars s) ->
  Strings.ToUpper p = spaceDomainPrefix ->
  Strconv.Atoi suffix = (n, Some err) ->
  getPredefinedVar E' (p +:+ suffix) overrideKubeContext s
  = (Returns (false, "",
              Some (Errorf "Error parsing variable %s: %v"
                      [ArgS (p +:+ suffix); ArgV err])), s).
Proof.
  intros Hreg Hp Hatoi.
  destruct (parametric_name E s p suffix Hreg Hp) as (H1 & H2 & H3).
  unfold_lookup. rewrite H1, H2, run_bind. cbn [eval]. rewrite H3, Hatoi.
  reflexivity.
Qed.

Lemma malformed_index_is_refused_in_every_world_witness :
  getPredefinedVar Sample.noContext ("Devspace_Space_Domain" +:+ "1st") ""
    Sample.initial
  = (Returns (false, "",
              Some (Errorf "Error parsing variable %s: %v"
                      [ArgS ("Devspace_Space_Domain" +:+ "1st");
                       ArgV (Strconv.syntaxError "Atoi" "1st")])), Sample.initial).
Proof.
  apply (malformed_index_is_refused_in_every_world Sample.world Sample.noContext
           "Devspace_Space_Domain" "1st" "" Sample.initial 0
           (Strconv.syntaxError "Atoi" "1st")).
  - apply registryState_initial.
  - reflexivity.
  - reflexivity.
Defined.

(** X12: where the chain of the lookup leads to a space, an index from 1
    to the number of its domains returns [found = true] and the URL of the
    domain at that place, counted from 1. *)
Theorem index_in_range_returns_domain_url (E : Externals)
    (p suffix overrideKubeContext : string) (s : state) (idx : Z)
    (cached : spaceCache) :
  registryState E (vars s) ->
  Strings.ToUpper p = spaceDomainPrefix ->
  Strconv.Atoi suffix = (idx, None) ->
  resolvesToSpace E overrideKubeContext cached ->
  1 <= idx <= Z.of_nat (length (Domains (Space cached))) ->
  exists domain,
    Domains (Space cached) !! Z.to_nat (idx - 1) = Some domain
    /\ getPredefinedVar E (p +:+ suffix) overrideKubeContext s
       = (Returns (true, URL domain, None), s).
Proof.
  intros Hreg Hp Hatoi Hchain Hidx.
  exact (parametric_index_in_range E p suffix overrideKubeContext s Hreg Hp
           idx cached Hatoi Hchain Hidx).
Qed.

Lemma index_in_range_returns_domain_url_witness :
  exists domain,
    Sample.domains !! Z.to_nat (2 - 1) = Some domain
    /\ getPredefinedVar Sample.world ("devspace_space_domain" +:+ "2")
         "devspace-space" Sample.initial
       = (Returns (true, URL domain, None), Sample.initial).
Proof.
  apply (index_in_range_returns_domain_url Sample.world "devspace_space_domain" "2"
           "devspace-space" Sample.initial 2 Sample.cached).
  - apply registryState_initial.
  - reflexivity.
  - reflexivity.
  - exact sample_resolvesToSpace.
  - cbn. lia.
Defined.

(** X13: where the chain of the lookup leads to a space, an index above
    the number of its domains is refused with an error that carries the
    name, the number of domains and the index. *)
Theorem index_beyond_domains_is_refused (E : Externals)
    (p suffix overrideKubeContext : string) (s : state) (idx : Z)
    (cached : spaceCache) :
  registryState E (vars s) ->
  Strings.ToUpper p = spaceDomainPrefix ->
  Strconv.Atoi suffix = (idx, None) ->
  resolvesToSpace E overrideKubeContext cached ->
  Z.of_nat (length (Domains (Space cached))) < idx ->
  getPredefinedVar E (p +:+ suffix) overrideKubeContext s
  = (Returns (false, "",
              Some (Errorf
                      "Error loading %s: Space has %d domains but domain with number %d was requested"
                      [ArgS (p +:+ suffix);
                       ArgD (Z.of_nat (length (Domains (Space cached))));
                       ArgD idx])), s).
Proof.
  intros Hreg Hp Hatoi Hchain Hidx.
  exact (parametric_index_beyond E p suffix overrideKubeContext s Hreg Hp
           idx cached Hatoi Hchain Hidx).
Qed.

Lemma index_beyond_domains_is_refused_witness :
  getPredefinedVar Sample.world ("DEVSPACE_SPACE_DOMAIN" +:+ "3") "devspace-space"
    Sample.initial
  = (Returns (false, "",
              Some (Errorf
                      "Error loading %s: Space has %d domains but domain with number %d was requested"
                      [ArgS ("DEVSPACE_SPACE_DOMAIN" +:+ "3");
                       ArgD (Z.of_nat (length (Domains (Space Sample.cached))));
                       ArgD 3])), Sample.initial).
Proof.
  apply (index_beyond_domains_is_refused Sample.world "DEVSPACE_SPACE_DOMAIN" "3"
           "devspace-space" Sample.initial 3 Sample.cached).
  - apply registryState_initial.
  - reflexivity.
  - reflexivity.
  - exact sample_resolvesToSpace.
  - cbn. lia.
Defined.

(** X14: where a link of the chain is missing, a parametric lookup with a
    suffix [Atoi] accepts returns the error of that link, whatever the
    index: a wrapped error for the current-context read and for the
    provider-config parse, the provider name for an unknown provider, and
    the no-space message with the name as typed where the context is no
    space or the space is not cached. The index is not looked at, so 0 and
    negative indices are refused here too. *)
Theorem broken_chain_is_refused_before_the_index (E : Externals)
    (p suffix overrideKubeContext : string) (s : state) (idx : Z) (err : error) :
  registryState E (vars s) ->
  Strings.ToUpper p = spaceDomainPrefix ->
  Strconv.Atoi suffix = (idx, None) ->
  chainError E overrideKubeContext (p +:+ suffix) err ->
  getPredefinedVar E (p +:+ suffix) overrideKubeContext s
  = (Returns (false, "", Some err), s).
Proof.
  intros Hreg Hp Hatoi Hchain.
  destruct (parametric_name E s p suffix Hreg Hp) as (H1 & H2 & H3).
  unfold_lookup. rewrite H1, H2, run_bind. cbn [eval]. rewrite H3, Hatoi.
  destruct Hchain as [e Hc | c e Hc Hid | c i pn e Hc Hid Hcfg
                      | c i pn cfg Hc Hid Hcfg Hprov
                      | c i pn cfg prov Hc Hid Hcfg Hprov Hsp
                      | c i pn cfg prov spaces Hc Hid Hcfg Hprov Hsp Hcached];
    rewrite Hc; try rewrite Hid; try rewrite Hcfg; try rewrite Hprov;
    try rewrite Hsp; try rewrite Hcached; reflexivity.
Qed.

Lemma broken_chain_is_refused_before_the_index_witness :
  getPredefinedVar Sample.world ("DEVSPACE_SPACE_DOMAIN" +:+ "0") "" Sample.initial
  = (Returns (false, "",
              Some (noSpaceConfigured Sample.world ("DEVSPACE_SPACE_DOMAIN" +:+ "0"))),
     Sample.initial).
Proof.
  apply (broken_chain_is_refused_before_the_index Sample.world
           "DEVSPACE_SPACE_DOMAIN" "0" "" Sample.initial 0).
  - apply registryState_initial.
  - reflexivity.
  - reflexivity.
  - apply (contextIsNoSpace _ _ _ "minikube" (New "context is not a space"));
      reflexivity.
Defined.

(** X15: where the chain of the lookup leads to a space, every index of 0
    or less panics in [Domains[idx-1]], but for the least [int]: there
    [idx-1] wraps around to the greatest [int] and the bounds check refuses
    the index with the error for too great an index. *)
Theorem index_below_one_panics_or_wraps (E : Externals)
    (p suffix overrideKubeContext : string) (s : state) (idx : Z)
    (cached : spaceCache) :
  registryState E (vars s) ->
  Strings.ToUpper p = spaceDomainPrefix ->
  Strconv.Atoi suffix = (idx, None) ->
  resolvesToSpace E overrideKubeContext cached ->
  Z.of_nat (length (Domains (Space cached))) <= Strconv.maxInt64 ->
  idx <= 0 ->
  getPredefinedVar E (p +:+ suffix) overrideKubeContext s
  = if idx =? Strconv.minInt64
    then (Returns (false, "",
                   Some (Errorf
                           "Error loading %s: Space has %d domains but domain with number %d was requested"
                           [ArgS (p +:+ suffix);
                            ArgD (Z.of_nat (length (Domains (Space cached))));
                            ArgD idx])), s)
    else (Panics, s).
Proof.
  intros Hreg Hp Hatoi Hchain Hlen Hidx.
  pose proof (Atoi_range _ _ Hatoi) as Hrange.
  destruct (Z.eqb_spec idx Strconv.minInt64) as [->|Hne].
  - rewrite (parametric_indexing E p suffix overrideKubeContext s Hreg Hp
               _ cached Hatoi Hchain).
    assert (Hwrap : Strconv.wrapInt (Strconv.minInt64 - 1) = Strconv.maxInt64)
      by reflexivity.
    rewrite Hwrap.
    destruct (Z.leb_spec (Z.of_nat (length (Domains (Space cached))))
                Strconv.maxInt64); [reflexivity | lia].
  - apply (parametric_index_below_one E p suffix overrideKubeContext s Hreg Hp
             idx cached Hatoi Hchain).
    unfold Strconv.minInt64 in *. lia.
Qed.

Lemma index_below_one_panics_or_wraps_witness :
  getPredefinedVar Sample.world ("DEVSPACE_SPACE_DOMAIN" +:+ "-1") "devspace-space"
    Sample.initial
  = (Panics, Sample.initial).
Proof.
  apply (index_below_one_panics_or_wraps Sample.world "DEVSPACE_SPACE_DOMAIN" "-1"
           "devspace-space" Sample.initial (-1) Sample.cached).
  - apply registryState_initial.
  - reflexivity.
  - reflexivity.
  - exact sample_resolvesToSpace.
  - cbn. unfold Strconv.maxInt64. lia.
  - lia.
Defined.

(** X16: the domain is chosen by the number [Atoi] reads, not by its
    spelling: two names whose suffixes read as the same index in range
    (with or without a plus sign or leading zeros) get the same answer. *)
Theorem same_index_same_domain (E : Externals)
    (p p' suffix suffix' overrideKubeContext : string) (s : state) (idx : Z)
    (cached : spaceCache) :
  registryState E (vars s) ->
  Strings.ToUpper p = spaceDomainPrefix ->
  Strings.ToUpper p' = spaceDomainPrefix ->
  Strconv.Atoi suffix = (idx, None) ->
  Strconv.Atoi suffix' = (idx, None) ->
  resolvesToSpace E overrideKubeContext cached ->
  1 <= idx <= Z.of_nat (length (Domains (Space cached))) ->
  getPredefinedVar E (p +:+ suffix) overrideKubeContext s
  = getPredefinedVar E (p' +:+ suffix') overrideKubeContext s.
Proof.
  intros Hreg Hp Hp' Hatoi Hatoi' Hchain Hidx.
  destruct (parametric_index_in_range E p suffix overrideKubeContext s Hreg Hp
              idx cached Hatoi Hchain Hidx) as (domain & Hd & ->).
  destruct (parametric_index_in_range E p' suffix' overrideKubeContext s Hreg Hp'
              idx cached Hatoi' Hchain Hidx) as (domain' & Hd' & ->).
  congruence.
Qed.

Lemma same_index_same_domain_witness :
  getPredefinedVar Sample.world ("DEVSPACE_SPACE_DOMAIN" +:+ "2") "devspace-space"
    Sample.initial
  = getPredefinedVar Sample.world ("devspace_space_domain" +:+ "+002")
      "devspace-space" Sample.initial.
Proof.
  apply (same_index_same_domain Sample.world "DEVSPACE_SPACE_DOMAIN"
           "devspace_space_domain" "2" "+002" "devspace-space" Sample.initial 2
           Sample.cached).
  - apply registryState_initial.
  - reflexivity.
  - reflexivity.
  - reflexivity.
  - reflexivity.
  - exact sample_resolvesToSpace.
  - cbn. lia.
Defined.

(** * Further properties of the resolvers *)

Lemma resolve_space (E : Externals) (o : string) :
  resolve E "DEVSPACE_SPACE" o = Some (fillSpace E o).
Proof.
  rewrite resolve_unfold. repeat (case_decide; [discriminate|]).
  case_decide; [reflexivity | congruence].
Qed.

Lemma resolve_space_namespace (E : Externals) (o : string) :
  resolve E "DEVSPACE_SPACE_NAMESPACE" o = Some (fillSpaceNamespace E o).
Proof.
  rewrite resolve_unfold. repeat (case_decide; [discriminate|]).
  case_decide; [reflexivity | congruence].
Qed.

Lemma resolve_username (E : Externals) (o : string) :
  resolve E "DEVSPACE_USERNAME" o = Some (fillUsername E o).
Proof.
  rewrite resolve_unfold. repeat (case_decide; [discriminate|]).
  case_decide; [reflexivity | congruence].
Qed.

(** Closes the case of two resolvers that return no value. *)
Ltac no_value :=
  split; [reflexivity|]; split; [reflexivity|];
  split; [tauto | intros [? ?]; discriminate].

(** X17: the resolvers of [DEVSPACE_SPACE] and [DEVSPACE_SPACE_NAMESPACE]
    never panic and end alike: they return the same error, or both a value,
    or both [nil]. Where they return values, these are the name and the
    namespace of one cached space, and that space is the one the chain of a
    parametric lookup leads to under the same override. *)
Theorem space_and_namespace_resolve_together (E : Externals)
    (overrideKubeContext : string) :
  exists name namespace err,
    resolve E "DEVSPACE_SPACE" overrideKubeContext = Some (Returns (name, err))
    /\ resolve E "DEVSPACE_SPACE_NAMESPACE" overrideKubeContext
       = Some (Returns (namespace, err))
    /\ (is_Some name <-> is_Some namespace)
    /\ (is_Some name ->
        err = None
        /\ exists cached,
             resolvesToSpace E overrideKubeContext cached
             /\ name = Some (Name (Space cached))
             /\ namespace = Some (Namespace (ServiceAccount cached))).
Proof.
  rewrite resolve_space, resolve_space_namespace.
  unfold fillSpace, fillSpaceNamespace.
  destruct (kubeconfig_GetCurrentContext E) as [c|e] eqn:Hc.
  2: { exists None, None, None. no_value. }
  cbv zeta.
  destruct (kubeconfig_IsCloudSpace E _) as [[|]|e] eqn:Hs.
  2,3: exists None, None, None; no_value.
  destruct (kubeconfig_GetSpaceID E _) as [[i pn]|e] eqn:Hid.
  2: { exists None, None, (Some e). no_value. }
  destruct (cloudconfig_ParseProviderConfig E) as [cfg|e] eqn:Hcfg.
  2: { exists None, None, None. no_value. }
  destruct (cloudconfig_GetProvider E cfg pn) as [prov|] eqn:Hprov.
  2: { exists None, None, None. no_value. }
  destruct (Spaces prov) as [spaces|] eqn:Hsp.
  2: { exists None, None, None. no_value. }
  destruct (spaces !! i) as [cached|] eqn:Hcached.
  2: { exists None, None, None. no_value. }
  exists (Some (Name (Space cached))), (Some (Namespace (ServiceAccount cached))), None.
  split; [reflexivity|]. split; [reflexivity|]. split; [split; eauto|].
  intros _. split; [reflexivity|]. exists cached.
  split; [|split; reflexivity].
  exists c, i, pn, cfg, prov, spaces. repeat split; assumption.
Qed.

(** X18: a failure of [kubeconfig.GetSpaceID], for a context that the
    cloud-space check accepted, is a hard error of both space resolvers:
    they return the error as it is, and no value. *)
Theorem space_id_failure_is_a_hard_error (E : Externals)
    (overrideKubeContext kubeContext : string) (err : error) :
  kubeconfig_GetCurrentContext E = Ok kubeContext ->
  kubeconfig_IsCloudSpace E (effectiveContext kubeContext overrideKubeContext)
  = Ok true ->
  kubeconfig_GetSpaceID E (effectiveContext kubeContext overrideKubeContext)
  = Failed err ->
  resolve E "DEVSPACE_SPACE" overrideKubeContext = Some (Returns (None, Some err))
  /\ resolve E "DEVSPACE_SPACE_NAMESPACE" overrideKubeContext
     = Some (Returns (None, Some err)).
Proof.
  intros Hc Hs Hid. rewrite resolve_space, resolve_space_namespace.
  unfold fillSpace, fillSpaceNamespace. now rewrite Hc, Hs, Hid.
Qed.

(** X19: the resolver of [DEVSPACE_USERNAME] never panics, and it returns
    an account name only where the provider store was parsed, holds a
    provider with a token that is not empty, and the token names that
    account. *)
Theorem username_comes_from_a_token (E : Externals) (overrideKubeContext : string) :
  resolve E "DEVSPACE_USERNAME" overrideKubeContext <> Some Panics
  /\ forall accountName err,
       resolve E "DEVSPACE_USERNAME" overrideKubeContext
       = Some (Returns (Some accountName, err)) ->
       err = None
       /\ exists cloudConfigData providerName provider,
            cloudconfig_ParseProviderConfig E = Ok cloudConfigData
            /\ cloudconfig_GetProvider E cloudConfigData providerName = Some provider
            /\ Token provider <> ""
            /\ cloudtoken_GetAccountName E (Token provider) = Ok accountName.
Proof.
  rewrite resolve_username. unfold fillUsername.
  destruct (kubeconfig_GetCurrentContext E) as [c|e]; [|split; [|intros ? ?]; discriminate].
  destruct (cloudconfig_ParseProviderConfig E) as [cfg|e];
    [|split; [|intros ? ?]; discriminate].
  cbv zeta.
  match goal with
  | |- context [cloudconfig_GetProvider E cfg ?pn] => set (providerName := pn)
  end.
  destruct (cloudconfig_GetProvider E cfg providerName) as [prov|] eqn:Hprov;
    [|split; [|intros ? ?]; discriminate].
  destruct (String.eqb_spec (Token prov) "") as [|Htoken];
    [split; [|intros ? ?]; discriminate|].
  destruct (cloudtoken_GetAccountName E (Token prov)) as [account|e] eqn:Hacc;
    [|split; [|intros ? ?]; discriminate].
  split; [discriminate|]. intros accountName err [= <- <-].
  split; [reflexivity|]. exists cfg, providerName, prov. repeat split; assumption.
Qed.

Lemma username_comes_from_a_token_witness :
  @None error = None
  /\ exists cloudConfigData providerName provider,
       cloudconfig_ParseProviderConfig Sample.world = Ok cloudConfigData
       /\ cloudconfig_GetProvider Sample.world cloudConfigData providerName
          = Some provider
       /\ Token provider <> ""
       /\ cloudtoken_GetAccountName Sample.world (Token provider) = Ok "alice".
Proof.
  apply (proj2 (username_comes_from_a_token Sample.world "") "alice" None).
  reflexivity.
Defined.

(** X20: outside of a space, that is where [kubeconfig.GetSpaceID] fails
    for the context in use, the resolver of [DEVSPACE_USERNAME] falls back
    to the default provider of the store, or, where the store names none,
    to the provider [DevSpaceCloudProviderName]; the account is the one the
    token of that provider names, and there is none ([nil], no error) where
    the provider is unknown, has no token, or the token names no
    account. *)
Theorem username_falls_back_to_default_provider (E : Externals)
    (overrideKubeContext kubeContext : string) (cloudConfigData : Config E)
    (err : error) :
  kubeconfig_GetCurrentContext E = Ok kubeContext ->
  cloudconfig_ParseProviderConfig E = Ok cloudConfigData ->
  kubeconfig_GetSpaceID E (effectiveContext kubeContext overrideKubeContext)
  = Failed err ->
  let fallback :=
    if String.eqb (Default E cloudConfigData) ""
    then cloudconfig_DevSpaceCloudProviderName E
    else Default E cloudConfigData in
  resolve E "DEVSPACE_USERNAME" overrideKubeContext
  = Some (Returns
            (match cloudconfig_GetProvider E cloudConfigData fallback with
             | None => None
             | Some provider =>
                 if String.eqb (Token provider) "" then None
                 else match cloudtoken_GetAccountName E (Token provider) with
                      | Ok accountName => Some accountName
                      | Failed _ => None
                      end
             end, None)).
Proof.
  intros Hc Hcfg Hid fallback. rewrite resolve_username. unfold fillUsername.
  rewrite Hc, Hcfg. cbv zeta. rewrite Hid. subst fallback.
  destruct (String.eqb (Default E cloudConfigData) ""); cbn [negb];
    (destruct (cloudconfig_GetProvider E cloudConfigData _) as [prov|];
     [|reflexivity]);
    (destruct (String.eqb (Token prov) ""); [reflexivity|]);
    now destruct (cloudtoken_GetAccountName E (Token prov)).
Qed.

Lemma username_falls_back_to_default_provider_witness :
  resolve Sample.world "DEVSPACE_USERNAME" "" = Some (Returns (Some "alice", None)).
Proof.
  apply (username_falls_back_to_default_provider Sample.world "" "minikube" tt
           (New "context is not a space")); reflexivity.
Defined.

Lemma space_id_failure_is_a_hard_error_witness :
  resolve Sample.staleSpace "DEVSPACE_SPACE" ""
  = Some (Returns (None, Some (New "no space id in context")))
  /\ resolve Sample.staleSpace "DEVSPACE_SPACE_NAMESPACE" ""
     = Some (Returns (None, Some (New "no space id in context"))).
Proof.
  apply (space_id_failure_is_a_hard_error Sample.staleSpace "" "minikube"
           (New "no space id in context")); reflexivity.
Defined.

(** * The command [update dependencies] *)

(** X21: the command updates the dependencies only with a config in hand:
    [UpdateAll] is called exactly when the root was set without error, a
    config exists there and the config was loaded without error. The
    command returns [nil] exactly when, on top of that, [UpdateAll]
    returned [nil], and it logs its success message in that case and in no
    other. *)
Theorem update_runs_only_with_a_loaded_config (C : Update.Collaborators) :
  (Update.UpdateAll ∈ snd (Update.RunDependencies C) <->
   Update.configLoader_SetDevSpaceRoot C = (true, None)
   /\ snd (Update.configLoader_Load C) = None)
  /\ (fst (Update.RunDependencies C) = None <->
      Update.configLoader_SetDevSpaceRoot C = (true, None)
      /\ snd (Update.configLoader_Load C) = None
      /\ Update.manager_UpdateAll C (fst (Update.configLoader_Load C)) = None)
  /\ (Update.Donef "Successfully updated all dependencies"
        ∈ snd (Update.RunDependencies C) <->
      fst (Update.RunDependencies C) = None).
Proof.
  unfold Update.RunDependencies.
  destruct (Update.configLoader_SetDevSpaceRoot C) as [[|] [e|]];
    destruct (Update.configLoader_Load C) as [config [e'|]]; cbn [negb fst snd];
    try destruct (Update.manager_UpdateAll C config) as [e''|] eqn:Hupdate;
    cbn [fst snd]; rewrite ?elem_of_cons, ?elem_of_nil;
    repeat split; intros; destruct_and?; destruct_or?;
    try discriminate; try reflexivity; try congruence;
    try (right; right; left; reflexivity);
    try (right; right; right; left; reflexivity); tauto.
Qed.

(** X22: an error of the command is the error of the first collaborator
    that failed, as that collaborator returned it, or, where the root holds
    no config, the message [ConfigNotFound]; the calls after the failing
    one are not made. *)
Theorem update_returns_the_first_error (C : Update.Collaborators) (err : error) :
  fst (Update.RunDependencies C) = Some err ->
  (snd (Update.configLoader_SetDevSpaceRoot C) = Some err
   /\ snd (Update.RunDependencies C) = [Update.SetDevSpaceRoot])
  \/ (Update.configLoader_SetDevSpaceRoot C = (false, None)
      /\ err = New (Update.message_ConfigNotFound C)
      /\ snd (Update.RunDependencies C) = [Update.SetDevSpaceRoot])
  \/ (Update.configLoader_SetDevSpaceRoot C = (true, None)
      /\ snd (Update.configLoader_Load C) = Some err
      /\ snd (Update.RunDependencies C) = [Update.SetDevSpaceRoot; Update.Load])
  \/ (Update.configLoader_SetDevSpaceRoot C = (true, None)
      /\ snd (Update.configLoader_Load C) = None
      /\ Update.manager_UpdateAll C (fst (Update.configLoader_Load C)) = Some err
      /\ snd (Update.RunDependencies C)
         = [Update.SetDevSpaceRoot; Update.Load; Update.UpdateAll]).
Proof.
  unfold Update.RunDependencies.
  destruct (Update.configLoader_SetDevSpaceRoot C) as [[|] [e|]];
    destruct (Update.configLoader_Load C) as [config [e'|]]; cbn [negb fst snd];
    try destruct (Update.manager_UpdateAll C config) as [e''|] eqn:Hupdate;
    cbn [fst snd]; intros [= <-]; auto 10.
Qed.

Lemma update_returns_the_first_error_witness :
  (snd (Update.configLoader_SetDevSpaceRoot Update.noConfig)
   = Some (New "Couldn't find a DevSpace configuration")
   /\ snd (Update.RunDependencies Update.noConfig) = [Update.SetDevSpaceRoot])
  \/ (Update.configLoader_SetDevSpaceRoot Update.noConfig = (false, None)
      /\ New "Couldn't find a DevSpace configuration"
         = New (Update.message_ConfigNotFound Update.noConfig)
      /\ snd (Update.RunDependencies Update.noConfig) = [Update.SetDevSpaceRoot])
  \/ (Update.configLoader_SetDevSpaceRoot Update.noConfig = (true, None)
      /\ snd (Update.configLoader_Load Update.noConfig)
         = Some (New "Couldn't find a DevSpace configuration")
      /\ snd (Update.RunDependencies Update.noConfig)
         = [Update.SetDevSpaceRoot; Update.Load])
  \/ (Update.configLoader_SetDevSpaceRoot Update.noConfig = (true, None)
      /\ snd (Update.configLoader_Load Update.noConfig) = None
      /\ Update.manager_UpdateAll Update.noConfig
           (fst (Update.configLoader_Load Update.noConfig))
         = Some (New "Couldn't find a DevSpace configuration")
      /\ snd (Update.RunDependencies Update.noConfig)
         = [Update.SetDevSpaceRoot; Update.Load; Update.UpdateAll]).
Proof.
  apply (update_returns_the_first_error Update.noConfig
           (New "Couldn't find a DevSpace configuration")).
  reflexivity.
Defined.
